(** * Dify patcher: the patch-application state machine

    A shallow embedding of [installer/patcher.py].  The script shells out to
    git through [subprocess.run]; here the outside world (file system, git)
    is an abstract type with a transition function for spawned processes, and
    every function of the script is a computation in a state-and-exception
    monad over that world, the list of processes spawned so far and the lines
    written to the console. *)

From Stdlib Require Import String Ascii List ZArith Bool Arith Lia.
From Stdlib Require Import Decimal DecimalString.
From Stdlib Require Import Sorted Permutation.
Import ListNotations.
Open Scope string_scope.

(** ** Python strings

    A [str] is a [string]; non-ASCII symbols of the literals appear as the
    bytes of their UTF-8 encoding. *)

Module PyStr.

Definition nl : string := String "010"%char EmptyString.
Definition esc : string := String "027"%char EmptyString.

(** Whitespace as [str.strip()] sees it in the ASCII range:
    TAB, LF, VT, FF, CR, FS, GS, RS, US and the space. *)
Definition isspace (c : ascii) : bool :=
  let n := nat_of_ascii c in
  ((9 <=? n)%nat && (n <=? 13)%nat) || ((28 <=? n)%nat && (n <=? 32)%nat).

Fixpoint lstrip (s : string) : string :=
  match s with
  | EmptyString => EmptyString
  | String c r => if isspace c then lstrip r else s
  end.

Fixpoint rstrip (s : string) : string :=
  match s with
  | EmptyString => EmptyString
  | String c r =>
      match rstrip r with
      | EmptyString => if isspace c then EmptyString else String c EmptyString
      | r' => String c r'
      end
  end.

Definition strip (s : string) : string := rstrip (lstrip s).

Fixpoint startswith (p s : string) : bool :=
  match p, s with
  | EmptyString, _ => true
  | String _ _, EmptyString => false
  | String a p', String b s' => Ascii.eqb a b && startswith p' s'
  end.

(** [contains needle hay] is Python's [needle in hay]. *)
Fixpoint contains (needle hay : string) : bool :=
  startswith needle hay ||
  match hay with
  | EmptyString => false
  | String _ hay' => contains needle hay'
  end.

Fixpoint endswith_aux (rp rs : list ascii) : bool :=
  match rp, rs with
  | [], _ => true
  | _ :: _, [] => false
  | a :: rp', b :: rs' => Ascii.eqb a b && endswith_aux rp' rs'
  end.

Definition endswith (p s : string) : bool :=
  endswith_aux (List.rev (list_ascii_of_string p))
               (List.rev (list_ascii_of_string s)).

(** Truth value of a string: non-empty. *)
Definition truthy (s : string) : bool :=
  match s with EmptyString => false | String _ _ => true end.

Definition str_of_nat (n : nat) : string :=
  NilZero.string_of_uint (Nat.to_uint n).

Fixpoint repeat_str (s : string) (n : nat) : string :=
  match n with
  | O => EmptyString
  | S n' => s ++ repeat_str s n'
  end.

End PyStr.
Import PyStr.

(** ** ANSI colours ([class Colors]) *)

Module Colors.
Definition RED : string := esc ++ "[0;31m".
Definition GREEN : string := esc ++ "[0;32m".
Definition YELLOW : string := esc ++ "[1;33m".
Definition BLUE : string := esc ++ "[0;34m".
Definition NC : string := esc ++ "[0m".
End Colors.

(** ** Paths, processes and exceptions *)

(** A patch file found in the patches directory: [parent / name]. *)
Record Path := mkPath { parent : string; name : string }.

Definition joinpath (dir entry : string) : string := dir ++ "/" ++ entry.

Definition str_path (p : Path) : string := joinpath (parent p) (name p).

(** What [subprocess.run] hands back when the child process ran. *)
Record CompletedProcess := mkCompleted
  { returncode : Z; stdout : string; stderr : string }.

(** The exceptions the script distinguishes: [subprocess.CalledProcessError]
    (raised by [check=True] on a non-zero exit status), [FileNotFoundError],
    and any other [Exception] a spawn can end in. *)
Inductive exn :=
| CalledProcessError (rc : Z) (cmd : list string) (err : string)
| FileNotFoundError (msg : string)
| OtherException (msg : string).

(** How spawning a child process ends: it ran and exited, or the spawn itself
    raised. *)
Inductive spawned :=
| Exited (cp : CompletedProcess)
| NotFound (msg : string)
| Broken (msg : string).

(** One call of [subprocess.run]: the argument vector and [cwd]. *)
Definition call : Type := list string * option string.

(** The command-line arguments after [parse_args]. *)
Record Args := mkArgs
  { target : string;
    patches : string;
    dry_run : bool;
    force : bool;
    no_backup : bool }.

(** Counters of the batch loop. *)
Record counts := mkCounts
  { success_count : nat; skip_count : nat; fail_count : nat }.

(** The outside world: the file system and whatever else decides how a git
    process ends.  [spawn] runs a process with the given arguments and working
    directory; [path_exists], [listdir] and [resolve] stand for
    [Path.exists()], the directory listing behind [Path.glob] and
    [Path.resolve()]; [called_process_error_str] is [str(e)] of a
    [CalledProcessError], which Python builds from the exit status and the
    command. *)
Record Env := mkEnv
  { World : Type;
    spawn : list string -> option string -> World -> spawned * World;
    path_exists : string -> World -> bool;
    listdir : string -> World -> list string;
    resolve : string -> World -> string;
    called_process_error_str : Z -> list string -> string }.

(** ** The monad: state and exceptions *)

Inductive result (A : Type) :=
| Return (a : A)
| Raise (e : exn).
Arguments Return {A} a.
Arguments Raise {A} e.

Definition M (S A : Type) : Type := S -> result A * S.

Definition ret {S A} (a : A) : M S A := fun s => (Return a, s).

Definition bind {S A B} (m : M S A) (k : A -> M S B) : M S B :=
  fun s =>
    match m s with
    | (Return a, s') => k a s'
    | (Raise e, s') => (Raise e, s')
    end.

(** [try: m except ...: h e]; the handler answers [None] for an exception
    its [except] clause does not name, which then propagates. *)
Definition try_except {S A} (m : M S A) (h : exn -> option (M S A)) : M S A :=
  fun s =>
    match m s with
    | (Return a, s') => (Return a, s')
    | (Raise e, s') =>
        match h e with
        | Some k => k s'
        | None => (Raise e, s')
        end
    end.

Notation "x <- m ;; k" := (bind m (fun x => k))
  (at level 61, m at next level, right associativity).
Notation "m ;;; k" := (bind m (fun _ => k))
  (at level 61, right associativity).

(** The state a run threads through: the world, the processes spawned so far
    and the lines printed so far, both oldest first. *)
Record state (E : Env) := mkState
  { world : World E;
    calls : list call;
    console : list string }.
Arguments mkState {E} _ _ _.
Arguments world {E} _.
Arguments calls {E} _.
Arguments console {E} _.

Section Patcher.

Context {E : Env}.

Definition str_exn (e : exn) : string :=
  match e with
  | CalledProcessError rc cmd _ => called_process_error_str E rc cmd
  | FileNotFoundError msg => msg
  | OtherException msg => msg
  end.

Definition ask {A} (f : World E -> A) : M (state E) A :=
  fun s => (Return (f (world s)), s).

(** *** Console *)

Definition print (line : string) : M (state E) unit :=
  fun s => (Return tt, mkState (world s) (calls s) (console s ++ [line])).

Definition print_colored (message color : string) : M (state E) unit :=
  print (color ++ message ++ Colors.NC).

(** *** subprocess.run *)

Definition subprocess_run (args : list string) (cwd : option string)
           (check : bool) : M (state E) CompletedProcess :=
  fun s =>
    let (r, w') := spawn E args cwd (world s) in
    let s' := mkState w' (calls s ++ [(args, cwd)]) (console s) in
    match r with
    | Exited cp =>
        if check && negb (returncode cp =? 0)%Z
        then (Raise (CalledProcessError (returncode cp) args (stderr cp)), s')
        else (Return cp, s')
    | NotFound msg => (Raise (FileNotFoundError msg), s')
    | Broken msg => (Raise (OtherException msg), s')
    end.

(** *** check_git_available *)

Definition version_argv : list string := ["git"; "--version"].

Definition check_git_available : M (state E) bool :=
  try_except
    (subprocess_run version_argv None true ;;; ret true)
    (fun e =>
       match e with
       | CalledProcessError _ _ _ => Some (ret false)
       | FileNotFoundError _ => Some (ret false)
       | OtherException _ => None
       end).

(** *** is_patch_applied *)

Definition reverse_check_argv (patch_file : Path) : list string :=
  ["git"; "apply"; "--reverse"; "--check"; str_path patch_file].

Definition forward_check_argv (patch_file : Path) : list string :=
  ["git"; "apply"; "--check"; str_path patch_file].

Definition apply_argv (patch_file : Path) : list string :=
  ["git"; "apply"; str_path patch_file].

Definition is_patch_applied (target_dir : string) (patch_file : Path)
  : M (state E) (bool * string) :=
  try_except
    (result <- subprocess_run (reverse_check_argv patch_file)
                              (Some target_dir) false ;;
     if (returncode result =? 0)%Z then
       ret (true, "Already applied")
     else
       check_result <- subprocess_run (forward_check_argv patch_file)
                                      (Some target_dir) false ;;
       if (returncode check_result =? 0)%Z then
         ret (false, "Ready to apply")
       else
         ret (false, "Conflicts detected: " ++ strip (stderr check_result)))
    (fun e => Some (ret (false, "Error checking patch: " ++ str_exn e))).

(** *** apply_patch *)

(** The [try] block of [apply_patch]: the real application. *)
Definition forward_apply (target_dir : string) (patch_file : Path)
  : M (state E) (bool * string) :=
  try_except
    (subprocess_run (apply_argv patch_file) (Some target_dir) true ;;;
     ret (true, name patch_file ++ ": Applied successfully"))
    (fun e =>
       match e with
       | CalledProcessError _ _ err =>
           Some (ret (false,
                      name patch_file ++ ": Failed to apply" ++ nl
                      ++ strip err))
       | _ => None
       end).

Definition apply_patch (target_dir : string) (patch_file : Path)
           (dry : bool) : M (state E) (bool * string) :=
  let patch_name := name patch_file in
  probe <- is_patch_applied target_dir patch_file ;;
  let (is_applied, check_msg) := (probe : bool * string) in
  if is_applied then
    ret (true, patch_name ++ ": " ++ check_msg)
  else if contains "Conflicts" check_msg then
    ret (false, patch_name ++ ": " ++ check_msg)
  else if dry then
    ret (true, patch_name ++ ": Would be applied (dry-run)")
  else
    forward_apply target_dir patch_file.

(** *** apply_patches *)

(** [sorted(patches_dir.glob('*.patch'))]: the entries whose name ends in
    [.patch], in increasing order of name. *)
Fixpoint insert_sorted (x : string) (l : list string) : list string :=
  match l with
  | [] => [x]
  | y :: l' => if String.leb x y then x :: l else y :: insert_sorted x l'
  end.

Definition sorted (l : list string) : list string :=
  fold_right insert_sorted [] l.

Definition glob_patch (patches_dir : string) (w : World E) : list Path :=
  map (mkPath patches_dir)
      (sorted (filter (endswith ".patch") (listdir E patches_dir w))).

(** One turn of the [for] loop: the new counters, or the value of the
    [return] that leaves the function. *)
Definition loop_body (target_dir : string) (dry frc : bool)
           (c : counts) (patch_file : Path) : M (state E) (counts + bool) :=
  outcome <- apply_patch target_dir patch_file dry ;;
  let (success, message) := (outcome : bool * string) in
  if success then
    if contains "Already applied" message then
      print_colored ("  ⏭️  " ++ message) Colors.YELLOW ;;;
      ret (inl (mkCounts (success_count c) (S (skip_count c)) (fail_count c)))
    else
      print_colored ("  ✅ " ++ message) Colors.GREEN ;;;
      ret (inl (mkCounts (S (success_count c)) (skip_count c) (fail_count c)))
  else
    print_colored ("  ❌ " ++ message) Colors.RED ;;;
    if negb frc then
      print "" ;;;
      print_colored "❌ Stopping due to patch failure" Colors.RED ;;;
      print_colored "   Use --force to continue despite failures"
                    Colors.YELLOW ;;;
      ret (inr false)
    else
      ret (inl (mkCounts (success_count c) (skip_count c) (S (fail_count c)))).

Fixpoint for_patches (target_dir : string) (dry frc : bool)
         (patch_files : list Path) (c : counts)
  : M (state E) (counts + bool) :=
  match patch_files with
  | [] => ret (inl c)
  | patch_file :: rest =>
      r <- loop_body target_dir dry frc c patch_file ;;
      match r with
      | inl c' => for_patches target_dir dry frc rest c'
      | inr b => ret (inr b)
      end
  end.

(** The two lines printed before the loop starts. *)
Definition found_banner (n : nat) : M (state E) unit :=
  print_colored ("Found " ++ str_of_nat n ++ " patch file(s)") Colors.BLUE ;;;
  print "".

Definition summary (c : counts) : M (state E) unit :=
  print "" ;;;
  print_colored (repeat_str "═" 60) Colors.BLUE ;;;
  print_colored ("Summary: " ++ str_of_nat (success_count c) ++ " applied, "
                 ++ str_of_nat (skip_count c) ++ " skipped, "
                 ++ str_of_nat (fail_count c) ++ " failed") Colors.BLUE ;;;
  print_colored (repeat_str "═" 60) Colors.BLUE.

Definition apply_patches (target_dir patches_dir : string)
           (dry frc : bool) : M (state E) bool :=
  present <- ask (path_exists E patches_dir) ;;
  if negb present then
    print_colored ("❌ Patches directory not found: " ++ patches_dir)
                  Colors.RED ;;;
    ret false
  else
    patch_files <- ask (glob_patch patches_dir) ;;
    match patch_files with
    | [] =>
        print_colored ("⚠️  No patch files found in " ++ patches_dir)
                      Colors.YELLOW ;;;
        ret true
    | _ :: _ =>
        found_banner (List.length patch_files) ;;;
        r <- for_patches target_dir dry frc patch_files (mkCounts 0 0 0) ;;
        match r with
        | inr b => ret b
        | inl c => summary c ;;; ret (fail_count c =? 0)%nat
        end
    end.

(** *** create_backup *)

Definition status_argv : list string := ["git"; "status"; "--porcelain"].

Definition stash_argv : list string :=
  ["git"; "stash"; "push"; "-m";
   "Backup before applying custom nodes patches"].

Definition create_backup (target_dir : string) : M (state E) bool :=
  try_except
    (result <- subprocess_run status_argv (Some target_dir) true ;;
     if truthy (strip (stdout result)) then
       print_colored "📦 Creating backup of uncommitted changes..."
                     Colors.BLUE ;;;
       subprocess_run stash_argv (Some target_dir) true ;;;
       print_colored "✅ Backup created (git stash)" Colors.GREEN ;;;
       ret true
     else
       ret true)
    (fun e =>
       Some (print_colored ("⚠️  Could not create backup: " ++ str_exn e)
                           Colors.YELLOW ;;;
             ret true)).

(** *** main *)

(** Lines 274-286 of [main]: run the batch and turn its answer into the
    exit code. *)
Definition run_and_report (target_dir patches_dir : string)
           (dry frc : bool) : M (state E) Z :=
  success <- apply_patches target_dir patches_dir dry frc ;;
  if (success : bool) then
    print "" ;;;
    (if dry
     then print_colored "✅ All patches can be applied successfully!"
                        Colors.GREEN
     else print_colored "✅ All patches applied successfully!"
                        Colors.GREEN) ;;;
    ret 0%Z
  else
    print "" ;;;
    print_colored "❌ Some patches failed to apply" Colors.RED ;;;
    ret 1%Z.

(** Lines 264-267 of [main]: the backup step. *)
Definition backup_step (target_dir : string) (args : Args)
  : M (state E) unit :=
  if negb (no_backup args) && negb (dry_run args)
  then create_backup target_dir ;;; print ""
  else ret tt.

Definition main (args : Args) : M (state E) Z :=
  target_dir <- ask (resolve E (target args)) ;;
  patches_dir <- ask (resolve E (patches args)) ;;
  target_present <- ask (path_exists E target_dir) ;;
  if negb target_present then
    print_colored ("❌ Target directory not found: " ++ target_dir)
                  Colors.RED ;;;
    ret 1%Z
  else
    api_present <- ask (path_exists E (joinpath target_dir "api")) ;;
    web_present <- ask (path_exists E (joinpath target_dir "web")) ;;
    if negb api_present || negb web_present then
      print_colored ("❌ Invalid Dify directory: " ++ target_dir)
                    Colors.RED ;;;
      print_colored "   Expected to find 'api' and 'web' subdirectories"
                    Colors.RED ;;;
      ret 1%Z
    else
      git_ok <- check_git_available ;;
      if negb git_ok then
        print_colored "❌ Git is not available. Please install git first."
                      Colors.RED ;;;
        ret 1%Z
      else
        backup_step target_dir args ;;;
        print_colored ("🔧 " ++ (if dry_run args then "DRY RUN" else "APPLY")
                       ++ ": Patching Dify at " ++ target_dir)
                      Colors.GREEN ;;;
        print "" ;;;
        run_and_report target_dir patches_dir (dry_run args) (force args).

(** [sys.exit(main())]: an exception that leaves [main] ends the process
    with a traceback and exit status 1. *)
Definition exit_status (r : result Z) : Z :=
  match r with
  | Return code => code
  | Raise _ => 1%Z
  end.

End Patcher.

(** The number of patches the counters account for. *)
Definition total (c : counts) : nat :=
  success_count c + skip_count c + fail_count c.

(** ** States and calls the properties speak of *)

Section Traces.

Context {E : Env}.

(** The state after one more process was spawned. *)
Definition spawned_state (s : state E) (w' : World E) (argv : list string)
           (cwd : option string) : state E :=
  mkState w' (calls s ++ [(argv, cwd)]) (console s).

(** The state after one more line was printed. *)
Definition printed (s : state E) (line : string) : state E :=
  mkState (world s) (calls s) (console s ++ [line]).

(** The state after the loop printed a failed outcome and stopped. *)
Definition halted (s : state E) (message : string) : state E :=
  mkState (world s) (calls s)
          (List.app (console s)
             [Colors.RED ++ ("  ❌ " ++ message) ++ Colors.NC;
              "";
              Colors.RED ++ "❌ Stopping due to patch failure" ++ Colors.NC;
              Colors.YELLOW ++ "   Use --force to continue despite failures"
                            ++ Colors.NC]).

End Traces.

(** The processes of the dry-run facility: [git --version] and the two
    [git apply ... --check] forms. *)
Definition is_check_call (argv : list string) : bool :=
  match argv with
  | [g; v] => (g =? "git") && (v =? "--version")
  | [g; a; c; _] => (g =? "git") && (a =? "apply") && (c =? "--check")
  | [g; a; r; c; _] =>
      (g =? "git") && (a =? "apply") && (r =? "--reverse") && (c =? "--check")
  | _ => false
  end.

(** A process of the dry-run facility. *)
Definition check_call (c : call) : Prop := is_check_call (fst c) = true.

(** From [s] to [s'] the list of spawned processes grew by calls that all
    satisfy [P]. *)
Definition adds_calls {E : Env} (P : call -> Prop) (s s' : state E) : Prop :=
  exists new, calls s' = (calls s ++ new)%list /\ Forall P new.

(** The computation [m] takes every state to one that [R] relates to it. *)
Definition keeps {E : Env} {A} (R : state E -> state E -> Prop)
           (m : M (state E) A) : Prop :=
  forall s, R s (snd (m s)).

(** The real application, [git apply <patch>]. *)
Definition is_apply_call (argv : list string) : bool :=
  match argv with
  | [g; a; _] => (g =? "git") && (a =? "apply")
  | _ => false
  end.

(** The processes the script knows: the checks, the application, and the two
    commands of the backup. *)
Definition known_call (c : call) : Prop :=
  is_check_call (fst c) = true \/ is_apply_call (fst c) = true
  \/ fst c = ["git"; "status"; "--porcelain"]
  \/ fst c = ["git"; "stash"; "push"; "-m";
              "Backup before applying custom nodes patches"].

(** A check or the application: what a run without backup may spawn. *)
Definition patch_call (c : call) : Prop :=
  is_check_call (fst c) = true \/ is_apply_call (fst c) = true.

(** The computation [m] ends in a value from every state. *)
Definition returns {E : Env} {A} (m : M (state E) A) : Prop :=
  forall s, exists a s', m s = (Return a, s').

(** The computation [m], seen as the body of [main], gives exit status 0
    or 1. *)
Definition exits_0_or_1 {E : Env} (m : M (state E) Z) : Prop :=
  forall s, exit_status (fst (m s)) = 0%Z \/ exit_status (fst (m s)) = 1%Z.

(** Patch files in increasing order of name. *)
Definition by_name (a b : Path) : Prop := String.leb (name a) (name b) = true.

(** The character [c] occurs in [s]. *)
Fixpoint occurs (c : ascii) (s : string) : bool :=
  match s with
  | EmptyString => false
  | String d s' => Ascii.eqb d c || occurs c s'
  end.

(** The state in which the forced loop takes up the patch after
    [patch_file]: the one its turn for [patch_file] leaves. *)
Definition next_state {E : Env} (target_dir : string) (dry : bool)
           (patch_file : Path) (s : state E) : state E :=
  snd (loop_body target_dir dry true (mkCounts 0 0 0) patch_file s).

(** From state [s], the spawn of the real [git apply] for [patch_file]
    starts and exits, if the applicator gets to it at all. *)
Definition application_starts {E : Env} (target_dir : string)
           (patch_file : Path) (dry : bool) (s : state E) : bool :=
  match is_patch_applied target_dir patch_file s with
  | (Return (is_applied, check_msg), s1) =>
      if negb is_applied && negb (contains "Conflicts" check_msg) && negb dry
      then match fst (spawn E (apply_argv patch_file) (Some target_dir)
                            (world s1)) with
           | Exited _ => true
           | _ => false
           end
      else true
  | (Raise _, _) => true
  end.

(** In the forced run over [patch_files] from [s], no spawn of the real
    [git apply] raises. *)
Fixpoint applications_start {E : Env} (target_dir : string) (dry : bool)
         (patch_files : list Path) (s : state E) : bool :=
  match patch_files with
  | [] => true
  | patch_file :: rest =>
      application_starts target_dir patch_file dry s
      && applications_start target_dir dry rest
                            (next_state target_dir dry patch_file s)
  end.

(** The outcomes [apply_patch] returns, patch after patch, in the forced run
    over [patch_files] from [s]; the list stops where an exception leaves
    [apply_patch]. *)
Fixpoint outcomes {E : Env} (target_dir : string) (dry : bool)
         (patch_files : list Path) (s : state E) : list (bool * string) :=
  match patch_files with
  | [] => []
  | patch_file :: rest =>
      match apply_patch target_dir patch_file dry s with
      | (Return outcome, _) =>
          outcome :: outcomes target_dir dry rest
                              (next_state target_dir dry patch_file s)
      | (Raise _, _) => []
      end
  end.

(** The number of failed outcomes. *)
Definition failed (os : list (bool * string)) : nat :=
  List.length (filter (fun o => negb (fst o)) os).

(** ** A scripted world

    A small concrete world to run the script on: the outcomes of the
    processes to come are given as a list, consumed one per spawn (a process
    spawned after the list is used up exits with status 0 and no output); the
    tree records the patches a [git apply] has written and the snapshots a
    [git stash push] has taken. *)

Module Scripted.

Record sim := mkSim
  { script : list spawned;
    tree : list string;
    exists_ : string -> bool;
    entries : list string }.

Definition quiet : CompletedProcess := mkCompleted 0 "" "".

Definition exited_ok (r : spawned) : bool :=
  match r with
  | Exited cp => (returncode cp =? 0)%Z
  | _ => false
  end.

(** What a process writes to the tree when it exits with status 0. *)
Definition writes (argv : list string) : option string :=
  match argv with
  | g :: v :: rest =>
      if (g =? "git") && (v =? "stash") then Some "stash"
      else if (g =? "git") && (v =? "apply") then
        match rest with
        | [p] => Some p
        | _ => None
        end
      else None
  | _ => None
  end.

Definition run (argv : list string) (cwd : option string) (w : sim)
  : spawned * sim :=
  let r := hd (Exited quiet) (script w) in
  let t := match writes argv with
           | Some p => if exited_ok r then p :: tree w else tree w
           | None => tree w
           end in
  (r, mkSim (tl (script w)) t (exists_ w) (entries w)).

Definition env : Env :=
  mkEnv sim run (fun p w => exists_ w p) (fun _ w => entries w)
        (fun p _ => p) (fun _ _ => "Command returned non-zero exit status.").

(** The state a run starts in. *)
Definition start (rs : list spawned) (present : string -> bool)
           (names : list string) : state env :=
  @mkState env (mkSim rs [] present names) [] [].

Definition everything (_ : string) : bool := true.

Definition failing (err : string) : spawned := Exited (mkCompleted 1 "" err).

Definition passing : spawned := Exited quiet.

Definition nothing (_ : string) : bool := false.

Definition patch_a : Path := mkPath "/p" "a.patch".
Definition patch_b : Path := mkPath "/p" "b.patch".
Definition patch_c : Path := mkPath "/p" "c.patch".

(** A patches directory with three patches and a file that is not one. *)
Definition three_patches : list string :=
  ["c.patch"; "README.md"; "a.patch"; "b.patch"].

(** [a.patch] applies, [b.patch] conflicts. *)
Definition second_conflicts : state env :=
  start [failing "error: a"; passing; passing;
         failing "error: b"; failing ("error: patch failed: api/app.py:10" ++ nl)]
        everything three_patches.

(** A patch that passes both the probe and the real application. *)
Definition applies_cleanly (names : list string) : state env :=
  start [failing "error: not applied"; passing; passing] everything names.

(** A patch that passes the probe and fails in the real application. *)
Definition fails_late : state env :=
  start [failing "error: not applied"; passing;
         failing ("error: patch failed: api/app.py:10" ++ nl)]
        everything ["a.patch"].

(** The spawn of the probe raises, with a path in the text. *)
Definition probe_raises (text : string) : state env :=
  start [Broken text] everything ["a.patch"].

(** The probe passes and the spawn of the real application raises. *)
Definition apply_raises : state env :=
  start [failing "error: not applied"; passing;
         Broken "[Errno 12] Cannot allocate memory"]
        everything ["a.patch"; "b.patch"].

Definition clean_tree : state env :=
  start [Exited (mkCompleted 0 nl "")] everything [].

Definition dirty_tree : state env :=
  start [Exited (mkCompleted 0 (" M api/app.py" ++ nl) ""); passing]
        everything [].

(** The states the batch over [second_conflicts] goes through: after the
    first patch, and after the outcome of the second. *)
Definition after_first : state env :=
  Eval vm_compute in
    snd (for_patches "/dify" false false [patch_a] (mkCounts 0 0 0)
                     (snd (found_banner 3 second_conflicts))).

Definition after_second : state env :=
  Eval vm_compute in snd (apply_patch "/dify" patch_b false after_first).

(** Three patches in a forced run: [a.patch] applies, [b.patch] conflicts,
    [c.patch] applies. *)
Definition forced_through : state env :=
  start [failing "error: a"; passing; passing;
         failing "error: b"; failing ("error: patch failed: api/app.py:10" ++ nl);
         failing "error: c"; passing; passing]
        everything three_patches.

(** Git is there, the tree is dirty, and [a.patch] applies. *)
Definition git_then_applies : state env :=
  start [passing; failing "error: not applied"; passing; passing]
        everything ["a.patch"].

End Scripted.

(** ** A steady world

    A second concrete world, in which every process runs and exits: the tree
    is the list of patches applied; a reverse check succeeds on a patch that
    is in the tree, a forward check fails on a patch with [conflict] in its
    path, and the application fails on one with [bad] in its path. *)

Module Steady.

Definition exit_with (rc : Z) (err : string) : spawned :=
  Exited (mkCompleted rc "" err).

Definition run (argv : list string) (cwd : option string) (w : list string)
  : spawned * list string :=
  match Scripted.writes argv with
  | Some p =>
      if contains "bad" p
      then (exit_with 1 ("error: patch failed: " ++ p ++ nl), w)
      else (exit_with 0 "", p :: w)
  | None =>
      if is_check_call argv then
        match argv with
        | [_; _; _; _; p] =>
            (exit_with (if existsb (String.eqb p) w then 0 else 1) "", w)
        | [_; _; _; p] =>
            (exit_with (if contains "conflict" p then 1 else 0)
                       ("error: " ++ p ++ ": patch does not apply" ++ nl), w)
        | _ => (exit_with 0 "", w)
        end
      else (exit_with 0 "", w)
  end.

Definition env (names : list string) : Env :=
  mkEnv (list string) run (fun _ _ => true) (fun _ _ => names)
        (fun p _ => p) (fun _ _ => "Command returned non-zero exit status.").

Definition start (names : list string) : state (env names) :=
  @mkState (env names) [] [] [].

Definition mixed : list string := ["3-bad.patch"; "1-ok.patch"; "2-conflict.patch"].

End Steady.


(** ** Properties *)

(** *** Strings *)

Lemma startswith_app (n a b : string) :
  startswith n a = true -> startswith n (a ++ b) = true.
Proof.
  revert a; induction n as [|c n IH]; intros [|d a]; simpl; auto.
  - discriminate.
  - intros H; apply andb_true_iff in H as [H1 H2].
    rewrite H1, (IH _ H2); reflexivity.
Qed.

Lemma startswith_refl (t : string) : startswith t t = true.
Proof.
  induction t as [|c t IH]; simpl; auto.
  rewrite Ascii.eqb_refl; exact IH.
Qed.

Lemma contains_refl (t : string) : contains t t = true.
Proof.
  destruct t as [|c t]; [reflexivity|].
  unfold contains; fold contains.
  rewrite startswith_refl; reflexivity.
Qed.

Lemma contains_app_r (n a b : string) :
  contains n a = true -> contains n (a ++ b) = true.
Proof.
  induction a as [|d a IH]; simpl.
  - rewrite orb_false_r. destruct n; simpl; [|discriminate].
    intros _. destruct b; reflexivity.
  - intros H; apply orb_true_iff in H as [H|H].
    + change (String d (a ++ b)) with (String d a ++ b).
      rewrite (startswith_app _ _ _ H); reflexivity.
    + rewrite (IH H); apply orb_true_r.
Qed.

Lemma contains_app_l (n a b : string) :
  contains n b = true -> contains n (a ++ b) = true.
Proof.
  intros H; induction a as [|d a IH]; simpl; auto.
  rewrite IH; apply orb_true_r.
Qed.

(** Case analysis on how the processes of a computation end. *)
Ltac run_cases :=
  repeat (simpl;
          match goal with
          | |- context [spawn ?E ?a ?c ?w] =>
              let r := fresh "r" in
              let w' := fresh "w" in
              destruct (spawn E a c w) as [r w']; destruct r
          | |- context [(returncode ?cp =? 0)%Z] =>
              destruct (returncode cp =? 0)%Z
          end);
  simpl.

Section Properties.

Variable E : Env.

(** *** The probe *)

Lemma subprocess_run_exited argv cwd check (s : state E) cp w' :
  spawn E argv cwd (world s) = (Exited cp, w') ->
  subprocess_run argv cwd check s =
  (if check && negb (returncode cp =? 0)%Z
   then Raise (CalledProcessError (returncode cp) argv (stderr cp))
   else Return cp,
   spawned_state s w' argv cwd).
Proof.
  intros H; unfold subprocess_run; rewrite H.
  destruct (check && negb (returncode cp =? 0)%Z); reflexivity.
Qed.

Lemma probe_applied target p (s : state E) cp w' :
  spawn E (reverse_check_argv p) (Some target) (world s) = (Exited cp, w') ->
  returncode cp = 0%Z ->
  is_patch_applied target p s =
  (Return (true, "Already applied"),
   spawned_state s w' (reverse_check_argv p) (Some target)).
Proof.
  intros H H0; unfold is_patch_applied, try_except, bind.
  rewrite (subprocess_run_exited _ _ _ _ _ _ H); simpl.
  rewrite H0; reflexivity.
Qed.

Lemma probe_forward target p (s : state E) cp1 w1 cp2 w2 :
  spawn E (reverse_check_argv p) (Some target) (world s) = (Exited cp1, w1) ->
  returncode cp1 <> 0%Z ->
  spawn E (forward_check_argv p) (Some target) w1 = (Exited cp2, w2) ->
  is_patch_applied target p s =
  (Return (if (returncode cp2 =? 0)%Z
           then (false, "Ready to apply")
           else (false, "Conflicts detected: " ++ strip (stderr cp2))),
   spawned_state
     (spawned_state s w1 (reverse_check_argv p) (Some target))
     w2 (forward_check_argv p) (Some target)).
Proof.
  intros H1 N1 H2; unfold is_patch_applied, try_except, bind.
  rewrite (subprocess_run_exited _ _ _ _ _ _ H1); simpl.
  apply Z.eqb_neq in N1; rewrite N1.
  rewrite (subprocess_run_exited _ _ false
             (spawned_state s w1 (reverse_check_argv p) (Some target))
             cp2 w2 H2); simpl.
  destruct (returncode cp2 =? 0)%Z; reflexivity.
Qed.

(** Whatever the world does, a probe that answers "applied" answers with the
    fixed message, and it never raises. *)
Lemma probe_applied_message target p (s s' : state E) msg :
  is_patch_applied target p s = (Return (true, msg), s') ->
  msg = "Already applied".
Proof.
  unfold is_patch_applied, try_except, bind, subprocess_run, ret.
  run_cases; intros H; inversion H; reflexivity.
Qed.

Lemma probe_returns target p (s : state E) :
  exists b msg s', is_patch_applied target p s = (Return (b, msg), s').
Proof.
  unfold is_patch_applied, try_except, bind, subprocess_run, ret.
  run_cases; eauto.
Qed.

(** C3: when the reverse dry-run exits with status 0 the probe answers
    "already applied" after that single process (the forward dry-run is not
    spawned), the applicator reports the patch as already applied and not as
    a failure, and a probe that answers "applied" never carries a conflict
    message: Applied and Conflicting exclude each other. *)
Theorem C3_applied_check_first target p (s : state E) cp w' :
  spawn E (reverse_check_argv p) (Some target) (world s) = (Exited cp, w') ->
  returncode cp = 0%Z ->
  let s' := spawned_state s w' (reverse_check_argv p) (Some target) in
  is_patch_applied target p s = (Return (true, "Already applied"), s')
  /\ calls s' = (calls s ++ [(reverse_check_argv p, Some target)])%list
  /\ (forall dry,
         apply_patch target p dry s =
         (Return (true, name p ++ ": Already applied"), s'))
  /\ (forall (s0 s1 : state E) msg,
         is_patch_applied target p s0 = (Return (true, msg), s1) ->
         contains "Conflicts" msg = false).
Proof.
  intros H H0 s'; subst s'; repeat split.
  - apply (probe_applied _ _ _ _ _ H H0).
  - intros dry; unfold apply_patch, bind.
    rewrite (probe_applied _ _ _ _ _ H H0); reflexivity.
  - intros s0 s1 msg Hp.
    rewrite (probe_applied_message _ _ _ _ _ Hp); reflexivity.
Qed.

(** C4: when both dry-runs exit with a non-zero status, the probe answers
    "conflicting" and its reason is the stripped standard error of the
    forward dry-run; nothing of the reverse dry-run's output enters it. *)
Theorem C4_conflict_reason_from_forward target p (s : state E) cp1 w1 cp2 w2 :
  spawn E (reverse_check_argv p) (Some target) (world s) = (Exited cp1, w1) ->
  returncode cp1 <> 0%Z ->
  spawn E (forward_check_argv p) (Some target) w1 = (Exited cp2, w2) ->
  returncode cp2 <> 0%Z ->
  fst (is_patch_applied target p s) =
    Return (false, "Conflicts detected: " ++ strip (stderr cp2))
  /\ forall dry,
      fst (apply_patch target p dry s) =
        Return (false,
                name p ++ ": Conflicts detected: " ++ strip (stderr cp2)).
Proof.
  intros H1 N1 H2 N2.
  pose proof (probe_forward _ _ _ _ _ _ _ H1 N1 H2) as Hp.
  apply Z.eqb_neq in N2; rewrite N2 in Hp.
  split; [rewrite Hp; reflexivity|].
  intros dry; unfold apply_patch, bind; rewrite Hp; reflexivity.
Qed.

(** *** The applicator *)

Lemma forward_apply_exited target p (s : state E) cp w' :
  spawn E (apply_argv p) (Some target) (world s) = (Exited cp, w') ->
  forward_apply target p s =
  (Return (if (returncode cp =? 0)%Z
           then (true, name p ++ ": Applied successfully")
           else (false, name p ++ ": Failed to apply" ++ nl
                        ++ strip (stderr cp))),
   spawned_state s w' (apply_argv p) (Some target)).
Proof.
  intros H; unfold forward_apply, try_except, bind.
  rewrite (subprocess_run_exited _ _ _ _ _ _ H); simpl.
  destruct (returncode cp =? 0)%Z; reflexivity.
Qed.

Lemma forward_apply_calls target p (s : state E) :
  calls (snd (forward_apply target p s)) =
  (calls s ++ [(apply_argv p, Some target)])%list.
Proof.
  unfold forward_apply, try_except, bind, subprocess_run, ret.
  run_cases; reflexivity.
Qed.

(** When the probe answers neither "applied" nor a message with
    [Conflicts] in it, the applicator goes on: the dry-run answer, or the
    real application. *)
Lemma apply_patch_goes_on target p dry (s s1 : state E) m :
  is_patch_applied target p s = (Return (false, m), s1) ->
  contains "Conflicts" m = false ->
  apply_patch target p dry s =
  if dry
  then (Return (true, name p ++ ": Would be applied (dry-run)"), s1)
  else forward_apply target p s1.
Proof.
  intros Hp Hc; unfold apply_patch, bind; rewrite Hp, Hc.
  destruct dry; reflexivity.
Qed.

Lemma loop_body_failed target dry frc c p (s s1 : state E) message :
  apply_patch target p dry s = (Return (false, message), s1) ->
  loop_body target dry frc c p s =
  if frc
  then (Return (inl (mkCounts (success_count c) (skip_count c)
                              (S (fail_count c)))),
        printed s1 (Colors.RED ++ ("  ❌ " ++ message) ++ Colors.NC))
  else (Return (inr false), halted s1 message).
Proof.
  intros H; unfold loop_body, bind; rewrite H.
  destruct frc; unfold halted, printed; simpl;
    repeat rewrite <- app_assoc; reflexivity.
Qed.

Lemma loop_body_succeeded target dry frc c p (s s1 : state E) message :
  apply_patch target p dry s = (Return (true, message), s1) ->
  loop_body target dry frc c p s =
  if contains "Already applied" message
  then (Return (inl (mkCounts (success_count c) (S (skip_count c))
                              (fail_count c))),
        printed s1 (Colors.YELLOW ++ ("  ⏭️  " ++ message) ++ Colors.NC))
  else (Return (inl (mkCounts (S (success_count c)) (skip_count c)
                              (fail_count c))),
        printed s1 (Colors.GREEN ++ ("  ✅ " ++ message) ++ Colors.NC)).
Proof.
  intros H; unfold loop_body, bind; rewrite H.
  destruct (contains "Already applied" message); reflexivity.
Qed.

(** C8, as amended: when the probe lets the patch through and the real
    [git apply] exits with a non-zero status, the applicator returns the
    failure as a value whose message ends with the tool's standard error,
    stripped of the white space around it, and the batch loop receives it as
    a value too: it counts the failure or leaves the loop, nothing is
    raised. *)
Theorem C8_failed_apply_is_data target p (s s1 : state E) m cp w' :
  is_patch_applied target p s = (Return (false, m), s1) ->
  contains "Conflicts" m = false ->
  spawn E (apply_argv p) (Some target) (world s1) = (Exited cp, w') ->
  returncode cp <> 0%Z ->
  let message := name p ++ ": Failed to apply" ++ nl ++ strip (stderr cp) in
  let s2 := spawned_state s1 w' (apply_argv p) (Some target) in
  apply_patch target p false s = (Return (false, message), s2)
  /\ contains (strip (stderr cp)) message = true
  /\ forall frc c,
      fst (loop_body target false frc c p s) =
      Return (if frc
              then inl (mkCounts (success_count c) (skip_count c)
                                 (S (fail_count c)))
              else inr false).
Proof.
  intros Hp Hc Hs Hn message s2.
  assert (Ha : apply_patch target p false s = (Return (false, message), s2)).
  { rewrite (apply_patch_goes_on _ _ _ _ _ _ Hp Hc).
    rewrite (forward_apply_exited _ _ _ _ _ Hs).
    apply Z.eqb_neq in Hn; rewrite Hn; reflexivity. }
  split; [exact Ha|split].
  - unfold message; do 3 apply contains_app_l; apply contains_refl.
  - intros frc c; rewrite (loop_body_failed _ _ _ _ _ _ _ _ Ha).
    destruct frc; reflexivity.
Qed.

(** C9, as amended: when the probe ends in its exception handler with a
    text that has no [Conflicts] in it, the applicator neither stops nor
    reports a conflict: a dry run reports the patch as one that would be
    applied, and a real run goes on to the forward application, which spawns
    [git apply]. *)
Theorem C9_probe_error_goes_on target p (s s1 : state E) text :
  is_patch_applied target p s =
    (Return (false, "Error checking patch: " ++ text), s1) ->
  contains "Conflicts" text = false ->
  apply_patch target p true s =
    (Return (true, name p ++ ": Would be applied (dry-run)"), s1)
  /\ apply_patch target p false s = forward_apply target p s1
  /\ calls (snd (apply_patch target p false s)) =
     (calls s1 ++ [(apply_argv p, Some target)])%list.
Proof.
  intros Hp Hc.
  assert (Hc' : contains "Conflicts" ("Error checking patch: " ++ text)
                = false) by (simpl; exact Hc).
  split; [|split].
  - exact (apply_patch_goes_on _ _ true _ _ _ Hp Hc').
  - exact (apply_patch_goes_on _ _ false _ _ _ Hp Hc').
  - rewrite (apply_patch_goes_on _ _ false _ _ _ Hp Hc').
    apply forward_apply_calls.
Qed.

(** C10: a patch whose file name has [Already applied] in it, which the probe
    finds applicable and which [git apply] then applies with exit status 0,
    is counted as skipped and printed with the skip marker, not counted as
    applied. *)
Theorem C10_applied_patch_counted_as_skipped
        target p frc c (s : state E) cp1 w1 cp2 w2 cp3 w3 :
  contains "Already applied" (name p) = true ->
  spawn E (reverse_check_argv p) (Some target) (world s) = (Exited cp1, w1) ->
  returncode cp1 <> 0%Z ->
  spawn E (forward_check_argv p) (Some target) w1 = (Exited cp2, w2) ->
  returncode cp2 = 0%Z ->
  spawn E (apply_argv p) (Some target) w2 = (Exited cp3, w3) ->
  returncode cp3 = 0%Z ->
  exists s1,
    apply_patch target p false s =
      (Return (true, name p ++ ": Applied successfully"), s1)
    /\ world s1 = w3
    /\ In (apply_argv p, Some target) (calls s1)
    /\ loop_body target false frc c p s =
       (Return (inl (mkCounts (success_count c) (S (skip_count c))
                              (fail_count c))),
        printed s1 (Colors.YELLOW
                    ++ ("  ⏭️  " ++ name p ++ ": Applied successfully")
                    ++ Colors.NC)).
Proof.
  intros Hn H1 N1 H2 Z2 H3 Z3.
  pose proof (probe_forward _ _ _ _ _ _ _ H1 N1 H2) as Hp.
  rewrite Z2 in Hp; simpl in Hp.
  pose proof (apply_patch_goes_on _ _ false _ _ _ Hp eq_refl) as Ha.
  simpl in Ha.
  rewrite (forward_apply_exited target p
             (spawned_state
                (spawned_state s w1 (reverse_check_argv p) (Some target))
                w2 (forward_check_argv p) (Some target)) cp3 w3 H3), Z3 in Ha;
    simpl in Ha.
  eexists; split; [exact Ha|]; split; [reflexivity|]; split.
  - simpl; apply in_or_app; right; left; reflexivity.
  - rewrite (loop_body_succeeded _ _ _ _ _ _ _ _ Ha).
    rewrite (contains_app_r _ _ _ Hn); reflexivity.
Qed.

(** *** The snapshot guard *)

Lemma create_backup_returns target (s : state E) :
  exists s', create_backup target s = (Return true, s').
Proof.
  unfold create_backup, try_except, bind, subprocess_run, ret,
    print_colored, print.
  run_cases; eauto;
    destruct (truthy (strip (stdout cp))); simpl; eauto;
    run_cases; eauto.
Qed.

Lemma backup_step_returns target args (s : state E) :
  exists s', backup_step target args s = (Return tt, s').
Proof.
  unfold backup_step.
  destruct (negb (no_backup args) && negb (dry_run args));
    [|eexists; reflexivity].
  destruct (create_backup_returns target s) as [s' H].
  unfold bind; rewrite H; eexists; reflexivity.
Qed.

(** C7, as amended: the snapshot guard answers [True] on every path and
    never raises, whether the snapshot was taken, was not needed or failed,
    so its answer does not tell whether a snapshot exists; [git stash push]
    is spawned exactly when [git status --porcelain] exits with status 0 and
    prints something other than white space; and the backup step of [main]
    always runs through, so a failed snapshot does not stop the batch. *)
Theorem C7_backup_always_true target (s : state E) :
  (exists s', create_backup target s = (Return true, s'))
  /\ calls (snd (create_backup target s)) =
     (calls s ++
      (status_argv, Some target) ::
      match fst (spawn E status_argv (Some target) (world s)) with
      | Exited cp =>
          if (returncode cp =? 0)%Z && truthy (strip (stdout cp))
          then [(stash_argv, Some target)]
          else []
      | _ => []
      end)%list
  /\ (forall args, exists s', backup_step target args s = (Return tt, s')).
Proof.
  split; [apply create_backup_returns|split].
  - unfold create_backup, try_except, bind, subprocess_run, ret,
      print_colored, print.
    destruct (spawn E status_argv (Some target) (world s)) as [[cp|m|m] w1];
      simpl; try reflexivity.
    destruct (returncode cp =? 0)%Z; simpl; try reflexivity.
    destruct (truthy (strip (stdout cp))); simpl; try reflexivity.
    run_cases; rewrite <- app_assoc; reflexivity.
  - intros args; apply backup_step_returns.
Qed.

(** *** The batch runner: the patches directory *)

Lemma no_patch_entries (l : list string) :
  Forall (fun n => endswith ".patch" n = false) l ->
  filter (endswith ".patch") l = [].
Proof.
  induction 1 as [|n l Hn _ IH]; simpl; [reflexivity|].
  rewrite Hn; exact IH.
Qed.

(** C6: when the patches directory exists and none of its entries is a
    [.patch] file, the batch answers [True] after printing the warning, the
    exit code is 0 and no process is spawned; when the directory is missing
    the batch answers [False], the exit code is 1, and no process is spawned
    either. *)
Theorem C6_empty_and_missing_directory target patches_dir dry frc (s : state E) :
  (path_exists E patches_dir (world s) = true ->
   Forall (fun n => endswith ".patch" n = false)
          (listdir E patches_dir (world s)) ->
   apply_patches target patches_dir dry frc s =
     (Return true,
      printed s (Colors.YELLOW
                 ++ ("⚠️  No patch files found in " ++ patches_dir)
                 ++ Colors.NC))
   /\ exists s',
       run_and_report target patches_dir dry frc s = (Return 0%Z, s')
       /\ calls s' = calls s /\ world s' = world s)
  /\ (path_exists E patches_dir (world s) = false ->
   apply_patches target patches_dir dry frc s =
     (Return false,
      printed s (Colors.RED
                 ++ ("❌ Patches directory not found: " ++ patches_dir)
                 ++ Colors.NC))
   /\ exists s',
       run_and_report target patches_dir dry frc s = (Return 1%Z, s')
       /\ calls s' = calls s /\ world s' = world s).
Proof.
  split.
  - intros Hex Hno.
    assert (Ha : apply_patches target patches_dir dry frc s =
                 (Return true,
                  printed s (Colors.YELLOW
                             ++ ("⚠️  No patch files found in " ++ patches_dir)
                             ++ Colors.NC))).
    { unfold apply_patches, bind, ask; rewrite Hex; simpl.
      unfold glob_patch; rewrite (no_patch_entries _ Hno); reflexivity. }
    split; [exact Ha|].
    unfold run_and_report, bind; rewrite Ha.
    destruct dry; eexists; (split; [reflexivity|split; reflexivity]).
  - intros Hex.
    assert (Ha : apply_patches target patches_dir dry frc s =
                 (Return false,
                  printed s (Colors.RED
                             ++ ("❌ Patches directory not found: "
                                 ++ patches_dir)
                             ++ Colors.NC))).
    { unfold apply_patches, bind, ask; rewrite Hex; reflexivity. }
    split; [exact Ha|].
    unfold run_and_report, bind; rewrite Ha.
    eexists; (split; [reflexivity|split; reflexivity]).
Qed.

(** *** What a computation leaves untouched

    A relation [R] between the state before and the state after that holds
    across printing and across the processes [ok] allows is kept by every
    computation of the script that spawns allowed processes only. *)

Section Frame.

Variable R : state E -> state E -> Prop.
Variable ok : call -> Prop.
Variable dry : bool.

Hypothesis R_refl : forall s, R s s.
Hypothesis R_trans : forall a b c, R a b -> R b c -> R a c.
Hypothesis R_print : forall s line, R s (printed s line).
Hypothesis R_spawn :
  forall s argv cwd,
    ok (argv, cwd) ->
    R s (spawned_state s (snd (spawn E argv cwd (world s))) argv cwd).

Hypothesis ok_version : ok (version_argv, None).
Hypothesis ok_reverse : forall t p, ok (reverse_check_argv p, Some t).
Hypothesis ok_forward : forall t p, ok (forward_check_argv p, Some t).
Hypothesis ok_apply : dry = false -> forall t p, ok (apply_argv p, Some t).
Hypothesis ok_status : dry = false -> forall t, ok (status_argv, Some t).
Hypothesis ok_stash : dry = false -> forall t, ok (stash_argv, Some t).

Lemma keeps_ret {A} (a : A) : keeps R (ret a).
Proof. intros s; apply R_refl. Qed.

Lemma keeps_bind {A B} (m : M (state E) A) (k : A -> M (state E) B) :
  keeps R m -> (forall a, keeps R (k a)) -> keeps R (bind m k).
Proof.
  intros Hm Hk s; unfold bind.
  specialize (Hm s); destruct (m s) as [[a|e] s1]; simpl in *.
  - eapply R_trans; [exact Hm|apply Hk].
  - exact Hm.
Qed.

Lemma keeps_try {A} (m : M (state E) A) (h : exn -> option (M (state E) A)) :
  keeps R m -> (forall e k, h e = Some k -> keeps R k) -> keeps R (try_except m h).
Proof.
  intros Hm Hh s; unfold try_except.
  specialize (Hm s); destruct (m s) as [[a|e] s1]; simpl in *; auto.
  destruct (h e) as [k|] eqn:He; simpl; auto.
  eapply R_trans; [exact Hm|exact (Hh _ _ He s1)].
Qed.

Lemma keeps_ask {A} (f : World E -> A) : keeps R (ask f).
Proof. intros s; apply R_refl. Qed.

Lemma keeps_print line : keeps R (print line).
Proof. intros s; apply R_print. Qed.

Lemma keeps_print_colored message color : keeps R (print_colored message color).
Proof. apply keeps_print. Qed.

Lemma keeps_run argv cwd check :
  ok (argv, cwd) -> keeps R (subprocess_run argv cwd check).
Proof.
  intros Hok s; specialize (R_spawn s argv cwd Hok).
  unfold subprocess_run.
  destruct (spawn E argv cwd (world s)) as [[cp|m|m] w1]; simpl in *; auto.
  destruct (check && negb (returncode cp =? 0)%Z); exact R_spawn.
Qed.

Lemma keeps_if {A} (b : bool) (m1 m2 : M (state E) A) :
  keeps R m1 -> keeps R m2 -> keeps R (if b then m1 else m2).
Proof. destruct b; auto. Qed.

Lemma keeps_if_eqn {A} (b : bool) (m1 m2 : M (state E) A) :
  (b = true -> keeps R m1) -> (b = false -> keeps R m2) ->
  keeps R (if b then m1 else m2).
Proof. destruct b; auto. Qed.

Ltac keeps_step :=
  first
    [ apply keeps_ret | apply keeps_ask | apply keeps_print_colored
    | apply keeps_print
    | apply keeps_bind; [|intros ?]
    | apply keeps_if
    | apply keeps_run ].

Lemma keeps_check_git_available : keeps R check_git_available.
Proof.
  unfold check_git_available; apply keeps_try.
  - repeat keeps_step; exact ok_version.
  - intros [rc cmd err|m|m] k Hk; inversion Hk; apply keeps_ret.
Qed.

Lemma keeps_is_patch_applied t p : keeps R (is_patch_applied t p).
Proof.
  unfold is_patch_applied; apply keeps_try.
  - repeat keeps_step; auto.
  - intros e k Hk; inversion Hk; apply keeps_ret.
Qed.

Lemma keeps_forward_apply t p : dry = false -> keeps R (forward_apply t p).
Proof.
  intros Hd; unfold forward_apply; apply keeps_try.
  - repeat keeps_step; auto.
  - intros [rc cmd err|m|m] k Hk; inversion Hk; apply keeps_ret.
Qed.

Lemma keeps_apply_patch t p : keeps R (apply_patch t p dry).
Proof.
  unfold apply_patch; apply keeps_bind; [apply keeps_is_patch_applied|].
  intros [is_applied check_msg].
  do 2 (apply keeps_if; [apply keeps_ret|]).
  apply keeps_if_eqn; [intros _; apply keeps_ret|apply keeps_forward_apply].
Qed.

Lemma keeps_loop_body t frc c p : keeps R (loop_body t dry frc c p).
Proof.
  unfold loop_body; apply keeps_bind; [apply keeps_apply_patch|].
  intros [success message]; repeat keeps_step.
Qed.

Lemma keeps_for_patches t frc l : forall c, keeps R (for_patches t dry frc l c).
Proof.
  induction l as [|p l IH]; intros c; simpl; [apply keeps_ret|].
  apply keeps_bind; [apply keeps_loop_body|].
  intros [c'|b]; [apply IH|apply keeps_ret].
Qed.

Lemma keeps_summary c : keeps R (summary c).
Proof. unfold summary; repeat keeps_step. Qed.

Lemma keeps_apply_patches t pd frc : keeps R (apply_patches t pd dry frc).
Proof.
  unfold apply_patches; apply keeps_bind; [apply keeps_ask|].
  intros present; apply keeps_if; [repeat keeps_step|].
  apply keeps_bind; [apply keeps_ask|].
  intros [|p l]; [repeat keeps_step|].
  apply keeps_bind; [unfold found_banner; repeat keeps_step|]; intros _.
  apply keeps_bind; [apply keeps_for_patches|].
  intros [c|b]; [|apply keeps_ret].
  apply keeps_bind; [apply keeps_summary|intros _; apply keeps_ret].
Qed.

Lemma keeps_run_and_report t pd frc : keeps R (run_and_report t pd dry frc).
Proof.
  unfold run_and_report; apply keeps_bind; [apply keeps_apply_patches|].
  intros success; repeat keeps_step.
Qed.

Lemma keeps_create_backup t : dry = false -> keeps R (create_backup t).
Proof.
  intros Hd; unfold create_backup; apply keeps_try.
  - repeat keeps_step; auto.
  - intros e k Hk; inversion Hk; repeat keeps_step.
Qed.

Lemma keeps_backup_step t args :
  dry_run args = dry -> keeps R (backup_step t args).
Proof.
  intros Hd; unfold backup_step; rewrite Hd.
  apply keeps_if_eqn; [|intros _; apply keeps_ret].
  intros Hb; apply andb_true_iff in Hb as [_ Hb].
  apply negb_true_iff in Hb.
  apply keeps_bind; [apply keeps_create_backup; exact Hb|].
  intros _; apply keeps_print.
Qed.

Lemma keeps_main args : dry_run args = dry -> keeps R (main args).
Proof.
  intros Hd; unfold main.
  do 3 (apply keeps_bind; [apply keeps_ask|intros ?]).
  apply keeps_if; [repeat keeps_step|].
  do 2 (apply keeps_bind; [apply keeps_ask|intros ?]).
  apply keeps_if; [repeat keeps_step|].
  apply keeps_bind; [apply keeps_check_git_available|intros ?].
  apply keeps_if; [repeat keeps_step|].
  apply keeps_bind; [apply keeps_backup_step; exact Hd|intros _].
  apply keeps_bind; [apply keeps_print_colored|intros _].
  apply keeps_bind; [apply keeps_print|intros _].
  rewrite Hd; apply keeps_run_and_report.
Qed.

End Frame.

(** *** The batch runner: the loop *)

Lemma probe_calls t p (s : state E) :
  exists more,
    calls (snd (is_patch_applied t p s)) =
    (calls s ++ (reverse_check_argv p, Some t) :: more)%list.
Proof.
  unfold is_patch_applied, try_except, bind, subprocess_run, ret.
  run_cases;
    try (exists []; reflexivity);
    (eexists; rewrite <- app_assoc; reflexivity).
Qed.

Lemma next_state_any_counts t dry c p (s : state E) :
  snd (loop_body t dry true c p s) = next_state t dry p s.
Proof.
  unfold next_state, loop_body, bind.
  destruct (apply_patch t p dry s) as [[[b m]|e] s1]; [|reflexivity].
  destruct b; [destruct (contains "Already applied" m)|]; reflexivity.
Qed.

(** When the spawn of the real [git apply] does not raise, the applicator
    answers with an outcome, and it has run the probe. *)
Lemma apply_patch_started t p dry (s : state E) :
  application_starts t p dry s = true ->
  exists b message s' more,
    apply_patch t p dry s = (Return (b, message), s')
    /\ calls s' = (calls s ++ (reverse_check_argv p, Some t) :: more)%list.
Proof.
  unfold application_starts.
  destruct (probe_returns t p s) as (b & m & s1 & Hp).
  destruct (probe_calls t p s) as (more & Hc); rewrite Hp in Hc; simpl in Hc.
  unfold apply_patch, bind; rewrite Hp.
  destruct b; [intros _; repeat eexists; exact Hc|].
  destruct (contains "Conflicts" m); [intros _; repeat eexists; exact Hc|].
  destruct dry; [intros _; repeat eexists; exact Hc|].
  simpl.
  destruct (spawn E (apply_argv p) (Some t) (world s1)) as [r w'] eqn:Hw.
  destruct r as [cp|x|x]; simpl; try discriminate; intros _.
  rewrite (forward_apply_exited _ _ _ _ _ Hw).
  destruct (returncode cp =? 0)%Z;
    do 3 eexists; exists (more ++ [(apply_argv p, Some t)])%list;
    (split; [reflexivity|]);
    simpl; rewrite Hc, <- app_assoc; reflexivity.
Qed.

(** A dry run never gets to the real [git apply]. *)
Lemma applications_start_dry t l :
  forall s : state E, applications_start t true l s = true.
Proof.
  induction l as [|p l IH]; intros s; simpl; [reflexivity|].
  rewrite IH, andb_true_r; unfold application_starts.
  destruct (is_patch_applied t p s) as [[[b m]|e] s1]; [|reflexivity].
  rewrite andb_false_r; reflexivity.
Qed.

(** The forced loop, when no spawn of the real [git apply] raises: every
    patch gets an outcome and is counted according to it. *)
Lemma forced_loop t dry l :
  forall c (s : state E),
    applications_start t dry l s = true ->
    exists c' s' new,
      for_patches t dry true l c s = (Return (inl c'), s')
      /\ List.length (outcomes t dry l s) = List.length l
      /\ fail_count c' = fail_count c + failed (outcomes t dry l s)
      /\ success_count c' + skip_count c'
         = success_count c + skip_count c
           + (List.length l - failed (outcomes t dry l s))
      /\ failed (outcomes t dry l s) <= List.length l
      /\ calls s' = (calls s ++ new)%list
      /\ forall p, In p l -> In (reverse_check_argv p, Some t) new.
Proof.
  induction l as [|p l IH]; intros c s Hs.
  - exists c, s, []; simpl; rewrite app_nil_r.
    repeat split; try reflexivity; try (unfold failed; simpl; lia).
  - simpl in Hs; apply andb_true_iff in Hs as [Hp Hl].
    destruct (apply_patch_started t p dry s Hp)
      as (b & m & s1 & more & Ha & Hc).
    assert (Hb : exists c1,
               loop_body t dry true c p s = (Return (inl c1), next_state t dry p s)
               /\ fail_count c1 = fail_count c + (if b then 0 else 1)
               /\ success_count c1 + skip_count c1
                  = success_count c + skip_count c + (if b then 1 else 0)
               /\ calls (next_state t dry p s) = calls s1).
    { rewrite <- (next_state_any_counts t dry c p s).
      destruct b.
      - rewrite (loop_body_succeeded _ _ _ _ _ _ _ _ Ha).
        destruct (contains "Already applied" m); eexists;
          (split; [reflexivity|simpl; repeat split; lia]).
      - rewrite (loop_body_failed _ _ _ _ _ _ _ _ Ha).
        eexists; split; [reflexivity|simpl; repeat split; lia]. }
    destruct Hb as (c1 & Hb & Hf1 & Hs1 & Hc1).
    destruct (IH c1 (next_state t dry p s) Hl)
      as (c2 & s2 & new & Hf & Hlen & Hf2 & Hs2 & Hle & Hc2 & Hin).
    exists c2, s2, ((reverse_check_argv p, Some t) :: more ++ new)%list.
    assert (Ho : outcomes t dry (p :: l) s
                 = (b, m) :: outcomes t dry l (next_state t dry p s))
      by (simpl; rewrite Ha; reflexivity).
    assert (Hfo : failed (outcomes t dry (p :: l) s)
                  = (if b then 0 else 1)
                    + failed (outcomes t dry l (next_state t dry p s)))
      by (rewrite Ho; unfold failed; simpl; destruct b; reflexivity).
    split; [simpl; unfold bind; rewrite Hb; exact Hf|].
    split; [rewrite Ho; simpl; rewrite Hlen; reflexivity|].
    split; [rewrite Hfo, Hf2, Hf1; lia|].
    split; [rewrite Hfo, Hs2, Hs1; simpl List.length; destruct b; lia|].
    split; [rewrite Hfo; simpl List.length; destruct b; lia|].
    split.
    + rewrite Hc2, Hc1, Hc, <- app_assoc; reflexivity.
    + intros q [Hq|Hq]; [left; rewrite Hq; reflexivity|].
      right; apply in_or_app; right; exact (Hin q Hq).
Qed.

Lemma for_patches_app t dry frc l1 l2 c (s : state E) :
  for_patches t dry frc (l1 ++ l2) c s =
  match for_patches t dry frc l1 c s with
  | (Return (inl c'), s') => for_patches t dry frc l2 c' s'
  | other => other
  end.
Proof.
  revert c s; induction l1 as [|p l1 IH]; intros c s; [reflexivity|].
  simpl; unfold bind.
  destruct (loop_body t dry frc c p s) as [[[c'|b]|e] s']; auto.
Qed.

(** Past the two directory tests, [apply_patches] is the banner, the loop and
    what follows the loop. *)
Lemma apply_patches_started t pd dry frc (s : state E) l :
  path_exists E pd (world s) = true ->
  glob_patch pd (world s) = l ->
  l <> [] ->
  apply_patches t pd dry frc s =
  match for_patches t dry frc l (mkCounts 0 0 0)
                    (snd (found_banner (List.length l) s)) with
  | (Return (inr b), s') => (Return b, s')
  | (Return (inl c), s') =>
      (Return (fail_count c =? 0)%nat, snd (summary c s'))
  | (Raise e, s') => (Raise e, s')
  end.
Proof.
  intros Hex Hg Hne.
  destruct l as [|p l]; [contradiction|].
  unfold apply_patches, bind at 1, ask at 1; rewrite Hex; cbn [negb].
  unfold bind at 1, ask at 1; rewrite Hg.
  assert (Hb : found_banner (List.length (p :: l)) s =
               (Return tt, snd (found_banner (List.length (p :: l)) s)))
    by reflexivity.
  set (sb := snd (found_banner (List.length (p :: l)) s)) in *.
  unfold bind at 1; rewrite Hb.
  unfold bind at 1.
  destruct (for_patches t dry frc (p :: l) (mkCounts 0 0 0) sb)
    as [[[c2|b2]|e2] s2]; reflexivity.
Qed.

(** C1: without [force], when the patches before [p] went through and the
    outcome of [p] is a failure, the batch stops there: it answers [False],
    the exit code is 1, and the world and the list of spawned processes are
    those right after the outcome of [p], so none of the later patches is
    probed or applied. *)
Theorem C1_halt_on_failure
        target patches_dir dry pre p post (s s1 s2 : state E) c1 message :
  path_exists E patches_dir (world s) = true ->
  glob_patch patches_dir (world s) = (pre ++ p :: post)%list ->
  for_patches target dry false pre (mkCounts 0 0 0)
              (snd (found_banner (List.length (pre ++ p :: post)) s))
  = (Return (inl c1), s1) ->
  apply_patch target p dry s1 = (Return (false, message), s2) ->
  apply_patches target patches_dir dry false s
  = (Return false, halted s2 message)
  /\ calls (halted s2 message) = calls s2
  /\ world (halted s2 message) = world s2
  /\ exists s3,
      run_and_report target patches_dir dry false s = (Return 1%Z, s3)
      /\ calls s3 = calls s2
      /\ world s3 = world s2
      /\ exit_status (fst (run_and_report target patches_dir dry false s))
         = 1%Z.
Proof.
  intros Hex Hg Hpre Ha.
  assert (Hne : (pre ++ p :: post)%list <> []) by (destruct pre; discriminate).
  assert (Hb : apply_patches target patches_dir dry false s
               = (Return false, halted s2 message)).
  { rewrite (apply_patches_started _ _ _ _ _ _ Hex Hg Hne).
    rewrite for_patches_app, Hpre.
    simpl for_patches; unfold bind.
    rewrite (loop_body_failed _ _ _ _ _ _ _ _ Ha); reflexivity. }
  split; [exact Hb|].
  split; [reflexivity|split; [reflexivity|]].
  unfold run_and_report, bind; rewrite Hb.
  eexists; repeat split; reflexivity.
Qed.

(** C2, as amended: with [force], in a batch whose patches directory exists
    and in whose run no spawn of the real [git apply] itself raises (a dry
    run never gets to one), the loop runs through every patch: each one is
    probed and gets an outcome, [fail_count] is the number of failed
    outcomes and the other two counters share the rest, the batch answers
    [fail_count == 0], and the exit code is 1 when at least one outcome is a
    failure and 0 otherwise. *)
Theorem C2_force_processes_every_patch target patches_dir dry (s : state E) :
  let l := glob_patch patches_dir (world s) in
  let s0 := snd (found_banner (List.length l) s) in
  let os := outcomes target dry l s0 in
  path_exists E patches_dir (world s) = true ->
  (dry = false -> applications_start target dry l s0 = true) ->
  exists c s1 new s2,
    for_patches target dry true l (mkCounts 0 0 0) s0
    = (Return (inl c), s1)
    /\ List.length os = List.length l
    /\ calls s1 = (calls s ++ new)%list
    /\ (forall p, In p l -> In (reverse_check_argv p, Some target) new)
    /\ fail_count c = failed os
    /\ success_count c + skip_count c = List.length l - failed os
    /\ apply_patches target patches_dir dry true s
       = (Return (fail_count c =? 0)%nat, s2)
    /\ calls s2 = calls s1
    /\ world s2 = world s1
    /\ fst (run_and_report target patches_dir dry true s)
       = Return (if (failed os =? 0)%nat then 0%Z else 1%Z).
Proof.
  intros l s0 os Hex Hs'.
  assert (Hs : applications_start target dry l s0 = true)
    by (destruct dry; [apply applications_start_dry|exact (Hs' eq_refl)]).
  clear Hs'.
  destruct (forced_loop target dry l (mkCounts 0 0 0) s0 Hs)
    as (c & s1 & new & Hf & Hlen & Hfc & Hsc & _ & Hc & Hin).
  simpl in Hfc, Hsc; fold os in Hlen, Hfc, Hsc.
  assert (Ha : exists s2,
             apply_patches target patches_dir dry true s
             = (Return (fail_count c =? 0)%nat, s2)
             /\ calls s2 = calls s1 /\ world s2 = world s1).
  { destruct l as [|p l'] eqn:Hg.
    - simpl in Hf; inversion Hf; subst c s1.
      exists (printed s (Colors.YELLOW
                         ++ ("⚠️  No patch files found in " ++ patches_dir)
                         ++ Colors.NC)).
      split; [|split; reflexivity].
      unfold apply_patches, bind, ask; rewrite Hex; simpl.
      fold l; rewrite Hg; reflexivity.
    - exists (snd (summary c s1)); split; [|split; reflexivity].
      rewrite (apply_patches_started _ _ _ _ _ (p :: l') Hex Hg)
        by discriminate.
      fold s0; rewrite Hf; reflexivity. }
  destruct Ha as (s2 & Ha & Hc2 & Hw2).
  exists c, s1, new, s2.
  repeat (split; [assumption || reflexivity|]).
  unfold run_and_report, bind; rewrite Ha, Hfc.
  destruct (failed os =? 0)%nat; destruct dry; reflexivity.
Qed.

(** *** Dry runs *)

Lemma adds_calls_refl (P : call -> Prop) (s : state E) : adds_calls P s s.
Proof. exists []; split; [rewrite app_nil_r; reflexivity|constructor]. Qed.

Lemma adds_calls_trans (P : call -> Prop) (a b c : state E) :
  adds_calls P a b -> adds_calls P b c -> adds_calls P a c.
Proof.
  intros (n1 & H1 & F1) (n2 & H2 & F2); exists (n1 ++ n2)%list; split.
  - rewrite H2, H1, app_assoc; reflexivity.
  - apply Forall_app; split; assumption.
Qed.

Lemma adds_calls_spawn (P : call -> Prop) (s : state E) w argv cwd :
  P (argv, cwd) -> adds_calls P s (spawned_state s w argv cwd).
Proof.
  intros H; exists [(argv, cwd)]; split; [reflexivity|].
  constructor; [exact H|constructor].
Qed.

(** C5: in a dry run nothing that writes is spawned.  For a patch the probe
    finds applicable the applicator answers "would be applied" in the state
    the probe left, without spawning [git apply]; and over a whole run of
    [main] with [--dry-run], as over a whole batch, every process spawned is
    [git --version] or a [git apply ... --check] (no [git apply], no
    [git status], no [git stash]), so that, those processes leaving the tree
    as it is, the tree after the run is the tree before it, whatever the
    outcomes. *)
Theorem C5_dry_run_purity (T : Type) (tree : World E -> T) :
  (forall argv cwd w,
      is_check_call argv = true ->
      tree (snd (spawn E argv cwd w)) = tree w) ->
  (forall target p (s s1 : state E),
      is_patch_applied target p s = (Return (false, "Ready to apply"), s1) ->
      apply_patch target p true s
      = (Return (true, name p ++ ": Would be applied (dry-run)"), s1))
  /\ (forall args (s : state E),
         dry_run args = true ->
         tree (world (snd (main args s))) = tree (world s)
         /\ adds_calls check_call s (snd (main args s)))
  /\ (forall target patches_dir frc (s : state E),
         let s' := snd (apply_patches target patches_dir true frc s) in
         tree (world s') = tree (world s) /\ adds_calls check_call s s').
Proof.
  intros Hpure.
  set (R := fun s s' : state E =>
              tree (world s') = tree (world s)
              /\ adds_calls check_call s s').
  assert (R_refl : forall s, R s s)
    by (intros s; split; [reflexivity|apply adds_calls_refl]).
  assert (R_trans : forall a b c, R a b -> R b c -> R a c).
  { intros a b c [T1 A1] [T2 A2]; split;
      [rewrite T2; exact T1|exact (adds_calls_trans _ _ _ _ A1 A2)]. }
  assert (R_print : forall s line, R s (printed s line)).
  { intros s line; split; [reflexivity|].
    exists []; split; [simpl; rewrite app_nil_r; reflexivity|constructor]. }
  assert (R_spawn : forall s argv cwd,
             check_call (argv, cwd) ->
             R s (spawned_state s (snd (spawn E argv cwd (world s)))
                                argv cwd)).
  { intros s argv cwd Hok; split;
      [exact (Hpure argv cwd (world s) Hok)|exact (adds_calls_spawn _ _ _ _ _ Hok)]. }
  split; [|split].
  - intros target p s s1 Hp.
    exact (apply_patch_goes_on _ _ true _ _ _ Hp eq_refl).
  - intros args s Hd.
    apply (keeps_main R check_call true R_refl R_trans R_print R_spawn);
      try reflexivity; try discriminate; try exact Hd;
      intros; reflexivity.
  - intros target patches_dir frc s.
    apply (keeps_apply_patches R check_call true R_refl R_trans R_print
                               R_spawn);
      try reflexivity; try discriminate; intros; reflexivity.
Qed.

(** *** main *)

(** X14: past its validations, [main] is the backup step, two lines on the
    console, and [run_and_report], whose value is the exit code. *)
Lemma main_runs_batch args (s s1 : state E) :
  let t := resolve E (target args) (world s) in
  let pd := resolve E (patches args) (world s) in
  path_exists E t (world s) = true ->
  path_exists E (joinpath t "api") (world s) = true ->
  path_exists E (joinpath t "web") (world s) = true ->
  check_git_available s = (Return true, s1) ->
  exists s2,
    world s2 = world (snd (backup_step t args s1))
    /\ calls s2 = calls (snd (backup_step t args s1))
    /\ main args s = run_and_report t pd (dry_run args) (force args) s2.
Proof.
  intros t pd Ht Ha Hw Hg.
  destruct (backup_step_returns t args s1) as [sb Hb].
  unfold main, bind, ask; fold t; fold pd.
  rewrite Ht; cbn [negb].
  rewrite Ha, Hw; cbn [negb orb].
  rewrite Hg; cbn [negb].
  rewrite Hb; simpl.
  eexists; split; [|split; [|reflexivity]]; reflexivity.
Qed.

(** *** Further properties of the probe and the applicator *)

(** X1: the probe never raises; it answers with one of its four messages,
    "applied" going with the first only; it spawns the reverse dry-run and at
    most the forward dry-run after it, and prints nothing. *)
Theorem probe_contract target p (s : state E) :
  exists b msg s',
    is_patch_applied target p s = (Return (b, msg), s')
    /\ ((b = true /\ msg = "Already applied")
        \/ (b = false /\ msg = "Ready to apply")
        \/ (b = false /\ startswith "Conflicts detected: " msg = true)
        \/ (b = false /\ startswith "Error checking patch: " msg = true))
    /\ (calls s' = (calls s ++ [(reverse_check_argv p, Some target)])%list
        \/ calls s' = (calls s ++ [(reverse_check_argv p, Some target);
                                   (forward_check_argv p, Some target)])%list)
    /\ console s' = console s.
Proof.
  unfold is_patch_applied, try_except, bind, subprocess_run, ret.
  run_cases; do 3 eexists; (split; [reflexivity|]);
    repeat rewrite <- app_assoc; simpl; intuition.
Qed.

(** X2: the applicator spawns the real [git apply] exactly when the probe
    answered "not applied" with no [Conflicts] in its message and the run is
    not a dry run, and then once, right after the probe. *)
Theorem apply_spawned_exactly_when target p dry (s s1 : state E) b m :
  is_patch_applied target p s = (Return (b, m), s1) ->
  calls (snd (apply_patch target p dry s)) =
  (calls s1 ++
   if negb b && negb (contains "Conflicts" m) && negb dry
   then [(apply_argv p, Some target)]
   else [])%list.
Proof.
  intros Hp; unfold apply_patch, bind; rewrite Hp.
  destruct b; [simpl; rewrite app_nil_r; reflexivity|].
  destruct (contains "Conflicts" m); [simpl; rewrite app_nil_r; reflexivity|].
  destruct dry; [simpl; rewrite app_nil_r; reflexivity|].
  simpl; apply forward_apply_calls.
Qed.

(** X3: the applicator lets an exception out only in a real run and only
    when the spawn of [git apply] itself raised; the exception is the one of
    the spawn, never a [CalledProcessError]. *)
Theorem apply_patch_raises_only_from_spawn target p dry (s s' : state E) e :
  apply_patch target p dry s = (Raise e, s') ->
  dry = false
  /\ exists s1 w' msg,
      s' = spawned_state s1 w' (apply_argv p) (Some target)
      /\ ((e = FileNotFoundError msg
           /\ spawn E (apply_argv p) (Some target) (world s1)
              = (NotFound msg, w'))
          \/ (e = OtherException msg
              /\ spawn E (apply_argv p) (Some target) (world s1)
                 = (Broken msg, w'))).
Proof.
  destruct (probe_returns target p s) as (b & m & s1 & Hp).
  unfold apply_patch, bind; rewrite Hp.
  destruct b; [intros H; inversion H|].
  destruct (contains "Conflicts" m); [intros H; inversion H|].
  destruct dry; [intros H; inversion H|].
  unfold forward_apply, try_except, bind, subprocess_run, ret.
  destruct (spawn E (apply_argv p) (Some target) (world s1))
    as [[cp|msg|msg] w1] eqn:Hs; simpl.
  - destruct (returncode cp =? 0)%Z; simpl; intros H; inversion H.
  - intros H; inversion H; subst; split; [reflexivity|].
    exists s1, w1, msg; split; [reflexivity|left; split; [reflexivity|exact Hs]].
  - intros H; inversion H; subst; split; [reflexivity|].
    exists s1, w1, msg; split; [reflexivity|right; split; [reflexivity|exact Hs]].
Qed.

(** *** Computations that always end in a value *)

Lemma returns_ret {A} (a : A) : returns (E := E) (ret a).
Proof. intros s; eexists; eexists; reflexivity. Qed.

Lemma returns_bind {A B} (m : M (state E) A) (k : A -> M (state E) B) :
  returns m -> (forall a, returns (k a)) -> returns (bind m k).
Proof.
  intros Hm Hk s; unfold bind.
  destruct (Hm s) as (a & s1 & H1); rewrite H1; apply Hk.
Qed.

Lemma returns_print line : returns (E := E) (print line).
Proof. intros s; eexists; eexists; reflexivity. Qed.

Lemma returns_print_colored message color :
  returns (E := E) (print_colored message color).
Proof. apply returns_print. Qed.

Lemma returns_ask {A} (f : World E -> A) : returns (ask f).
Proof. intros s; eexists; eexists; reflexivity. Qed.

Lemma returns_if {A} (b : bool) (m1 m2 : M (state E) A) :
  returns m1 -> returns m2 -> returns (if b then m1 else m2).
Proof. destruct b; auto. Qed.

Ltac returns_step :=
  first
    [ apply returns_ret | apply returns_ask | apply returns_print_colored
    | apply returns_print
    | apply returns_bind; [|intros ?]
    | apply returns_if ].

Lemma returns_is_patch_applied t p : returns (is_patch_applied (E := E) t p).
Proof.
  intros s; destruct (probe_returns t p s) as (b & m & s' & H).
  exists (b, m), s'; exact H.
Qed.

Lemma returns_apply_patch_dry t p : returns (apply_patch (E := E) t p true).
Proof.
  unfold apply_patch; apply returns_bind; [apply returns_is_patch_applied|].
  intros [b m]; repeat returns_step.
Qed.

Lemma returns_loop_body_dry t frc c p :
  returns (loop_body (E := E) t true frc c p).
Proof.
  unfold loop_body; apply returns_bind; [apply returns_apply_patch_dry|].
  intros [b m]; repeat returns_step.
Qed.

Lemma returns_for_patches_dry t frc l :
  forall c, returns (for_patches (E := E) t true frc l c).
Proof.
  induction l as [|p l IH]; intros c; simpl; [apply returns_ret|].
  apply returns_bind; [apply returns_loop_body_dry|].
  intros [c'|b]; [apply IH|apply returns_ret].
Qed.

Lemma returns_apply_patches_dry t pd frc :
  returns (apply_patches (E := E) t pd true frc).
Proof.
  unfold apply_patches; apply returns_bind; [apply returns_ask|].
  intros present; apply returns_if; [repeat returns_step|].
  apply returns_bind; [apply returns_ask|].
  intros [|p l]; [repeat returns_step|].
  apply returns_bind; [unfold found_banner; repeat returns_step|]; intros _.
  apply returns_bind; [apply returns_for_patches_dry|].
  intros [c|b]; [|apply returns_ret].
  unfold summary; repeat returns_step.
Qed.

(** X4: a dry run of the batch never ends in an exception, whatever the
    processes do: [apply_patches] answers with a boolean, and the report
    gives exit code 0 for [True] and 1 for [False]. *)
Theorem dry_run_batch_never_raises target patches_dir frc (s : state E) :
  exists b s1 s2,
    apply_patches target patches_dir true frc s = (Return b, s1)
    /\ run_and_report target patches_dir true frc s
       = (Return (if b then 0%Z else 1%Z), s2).
Proof.
  destruct (returns_apply_patches_dry target patches_dir frc s)
    as (b & s1 & H).
  exists b, s1; unfold run_and_report, bind; rewrite H.
  destruct b; eexists; split; reflexivity.
Qed.

(** *** Further properties of the batch loop *)

Lemma loop_body_counters t dry frc c p (s s1 : state E) r :
  loop_body t dry frc c p s = (Return r, s1) ->
  match r with
  | inl c' =>
      total c' = S (total c) /\ (frc = false -> fail_count c' = fail_count c)
  | inr b => b = false /\ frc = false
  end.
Proof.
  unfold loop_body, bind.
  destruct (apply_patch t p dry s) as [[[b m]|e] s0];
    [|intros H; inversion H].
  destruct b.
  - destruct (contains "Already applied" m); simpl;
      intros H; inversion H; subst; unfold total; simpl; split; auto; lia.
  - destruct frc; simpl; intros H; inversion H; subst.
    + unfold total; simpl; split; [lia|discriminate].
    + split; reflexivity.
Qed.

Lemma for_patches_counts t dry frc l :
  forall c (s s' : state E) r,
    for_patches t dry frc l c s = (Return r, s') ->
    match r with
    | inl c' =>
        total c' = total c + List.length l
        /\ (frc = false -> fail_count c' = fail_count c)
    | inr b => b = false /\ frc = false
    end.
Proof.
  induction l as [|p l IH]; intros c s s' r; simpl.
  - intros H; inversion H; subst; split; [lia|reflexivity].
  - unfold bind.
    destruct (loop_body t dry frc c p s) as [[[c1|b]|e] s1] eqn:Hb;
      [| |intros H; inversion H].
    + intros H; specialize (IH _ _ _ _ H).
      pose proof (loop_body_counters _ _ _ _ _ _ _ _ Hb) as [T1 F1].
      destruct r as [c'|b]; [|exact IH].
      destruct IH as [T2 F2]; split; [lia|].
      intros Hf; rewrite (F2 Hf); exact (F1 Hf).
    + intros H; inversion H; subst.
      exact (loop_body_counters _ _ _ _ _ _ _ _ Hb).
Qed.

(** X5: when the loop runs through, its counters have grown by exactly the
    number of patches, and without [force] the failure counter has not
    moved; when the loop is left early, the value returned is [False] and
    the run is one without [force]. *)
Theorem for_patches_counters t dry frc l :
  forall c (s s' : state E) r,
    for_patches t dry frc l c s = (Return r, s') ->
    match r with
    | inl c' =>
        total c' = total c + List.length l
        /\ (frc = false -> fail_count c' = fail_count c)
    | inr b => b = false /\ frc = false
    end.
Proof. exact (for_patches_counts t dry frc l). Qed.

(** X6: without [force], a batch whose loop runs through answers [True]:
    no failure was counted, and every patch was counted as applied or
    skipped. *)
Theorem unforced_batch_that_completes
        target patches_dir dry l (s s1 : state E) c :
  path_exists E patches_dir (world s) = true ->
  glob_patch patches_dir (world s) = l ->
  l <> [] ->
  for_patches target dry false l (mkCounts 0 0 0)
              (snd (found_banner (List.length l) s))
  = (Return (inl c), s1) ->
  apply_patches target patches_dir dry false s
  = (Return true, snd (summary c s1))
  /\ fail_count c = 0
  /\ success_count c + skip_count c = List.length l.
Proof.
  intros Hex Hg Hne Hf.
  destruct (for_patches_counts _ _ _ _ _ _ _ _ Hf) as [Ht Hz].
  specialize (Hz eq_refl); simpl in Hz.
  split; [|split; [exact Hz|unfold total in Ht; simpl in Ht; lia]].
  rewrite (apply_patches_started _ _ _ _ _ _ Hex Hg Hne), Hf, Hz.
  reflexivity.
Qed.

Lemma startswith_app_sep n x c b :
  occurs c n = false -> startswith n (x ++ String c b) = startswith n x.
Proof.
  revert x; induction n as [|e n IH]; intros x; [reflexivity|].
  simpl occurs; intros H; apply orb_false_iff in H as [He Hn].
  destruct x as [|d x]; simpl.
  - rewrite He; reflexivity.
  - rewrite (IH x Hn); reflexivity.
Qed.

Lemma contains_app_sep n a c b :
  n <> "" -> occurs c n = false ->
  contains n (a ++ String c b) = contains n a || contains n b.
Proof.
  intros Hne Hc; induction a as [|d a IH].
  - destruct n as [|e n]; [contradiction|].
    simpl in Hc; apply orb_false_iff in Hc as [He _].
    simpl; rewrite He; reflexivity.
  - change (String d a ++ String c b) with (String d (a ++ String c b)).
    unfold contains; fold contains.
    change (String d (a ++ String c b)) with (String d a ++ String c b).
    rewrite (startswith_app_sep _ _ _ _ Hc), IH, orb_assoc; reflexivity.
Qed.

(** X7: a successful outcome is counted as skipped exactly when the probe
    answered "applied" or the file name of the patch has [Already applied]
    in it; every other successful outcome, the one of a dry run included, is
    counted as applied. *)
Theorem skipped_exactly_when
        target dry frc c p (s s0 s1 : state E) b m message :
  is_patch_applied target p s = (Return (b, m), s0) ->
  apply_patch target p dry s = (Return (true, message), s1) ->
  fst (loop_body target dry frc c p s) =
  Return (inl (if b || contains "Already applied" (name p)
               then mkCounts (success_count c) (S (skip_count c))
                             (fail_count c)
               else mkCounts (S (success_count c)) (skip_count c)
                             (fail_count c))).
Proof.
  intros Hp Ha.
  assert (Hm : contains "Already applied" message
               = b || contains "Already applied" (name p)).
  { pose proof Ha as Ha'.
    unfold apply_patch, bind in Ha'; rewrite Hp in Ha'.
    destruct b.
    - rewrite (probe_applied_message _ _ _ _ _ Hp) in Ha'.
      inversion Ha'; subst.
      apply contains_app_l; reflexivity.
    - destruct (contains "Conflicts" m); [inversion Ha'|].
      assert (Hsep : forall tail,
                 contains "Already applied" tail = false ->
                 contains "Already applied" (name p ++ String ":" tail)
                 = contains "Already applied" (name p)).
      { intros tail Ht.
        rewrite contains_app_sep by (discriminate || reflexivity).
        rewrite Ht; apply orb_false_r. }
      destruct dry.
      + inversion Ha'; subst; apply Hsep; reflexivity.
      + unfold forward_apply, try_except, bind, subprocess_run, ret in Ha'.
        destruct (spawn E (apply_argv p) (Some target) (world s0))
          as [[cp|x|x] w1]; simpl in Ha'; try (inversion Ha'; fail).
        destruct (returncode cp =? 0)%Z; simpl in Ha'; inversion Ha'; subst.
        apply Hsep; reflexivity. }
  rewrite (loop_body_succeeded _ _ _ _ _ _ _ _ Ha), Hm.
  destruct (b || contains "Already applied" (name p)); reflexivity.
Qed.

(** *** The patch files found *)

Lemma insert_sorted_perm x l : Permutation (insert_sorted x l) (x :: l).
Proof.
  induction l as [|y l IH]; simpl; [apply Permutation_refl|].
  destruct (String.leb x y); [apply Permutation_refl|].
  apply perm_trans with (y :: x :: l); [apply perm_skip; exact IH|].
  apply perm_swap.
Qed.

Lemma insert_sorted_keeps_order x l :
  Sorted (fun a b => String.leb a b = true) l ->
  Sorted (fun a b => String.leb a b = true) (insert_sorted x l).
Proof.
  induction 1 as [|y l Hs IH Hd]; simpl; [repeat constructor|].
  destruct (String.leb x y) eqn:Hxy.
  - constructor; [constructor; assumption|constructor; exact Hxy].
  - constructor; [exact IH|].
    assert (Hyx : String.leb y x = true)
      by (destruct (String.leb_total x y) as [H|H]; congruence).
    destruct l as [|z l]; simpl; [constructor; exact Hyx|].
    destruct (String.leb x z); constructor;
      [exact Hyx|inversion Hd; assumption].
Qed.

Lemma sorted_spec l :
  Sorted (fun a b => String.leb a b = true) (sorted l)
  /\ Permutation (sorted l) l.
Proof.
  induction l as [|x l [IHs IHp]]; simpl; [split; constructor|].
  split; [apply insert_sorted_keeps_order; exact IHs|].
  apply perm_trans with (x :: sorted l);
    [apply insert_sorted_perm|apply perm_skip; exact IHp].
Qed.

Lemma sorted_paths dir l :
  Sorted (fun a b => String.leb a b = true) l ->
  Sorted by_name (map (mkPath dir) l).
Proof.
  induction 1 as [|x l Hs IH Hd]; simpl; constructor; [exact IH|].
  destruct Hd; simpl; constructor; assumption.
Qed.

(** X8: the patch files the batch works on are the entries of the patches
    directory whose name ends in [.patch], each of them once, as paths under
    that directory, in increasing order of name. *)
Theorem glob_patch_sorted patches_dir (w : World E) :
  Sorted by_name (glob_patch patches_dir w)
  /\ Permutation (map name (glob_patch patches_dir w))
                 (filter (endswith ".patch") (listdir E patches_dir w))
  /\ Forall (fun p => parent p = patches_dir
                      /\ endswith ".patch" (name p) = true)
            (glob_patch patches_dir w).
Proof.
  unfold glob_patch.
  destruct (sorted_spec (filter (endswith ".patch")
                                (listdir E patches_dir w))) as [Hs Hp].
  split; [|split].
  - apply sorted_paths; exact Hs.
  - rewrite map_map; simpl; rewrite map_id; exact Hp.
  - apply Forall_forall; intros p Hin.
    apply in_map_iff in Hin as (n & <- & Hn); split; [reflexivity|].
    apply (Permutation_in _ Hp) in Hn.
    apply filter_In in Hn as [_ Hn]; exact Hn.
Qed.

(** *** Further properties of main *)

(** X9: when the target directory is missing, or has no [api] or no [web]
    entry, [main] returns 1 without spawning a process: git is not even
    looked for, and no patch is probed. *)
Theorem main_rejects_invalid_target args (s : state E) :
  let t := resolve E (target args) (world s) in
  path_exists E t (world s) = false
  \/ path_exists E (joinpath t "api") (world s) = false
  \/ path_exists E (joinpath t "web") (world s) = false ->
  fst (main args s) = Return 1%Z
  /\ calls (snd (main args s)) = calls s
  /\ world (snd (main args s)) = world s.
Proof.
  intros t0 H; subst t0; unfold main, bind, ask.
  set (t := resolve E (target args) (world s)) in *.
  destruct (path_exists E t (world s)) eqn:H1;
    [|simpl; repeat split; reflexivity].
  cbn [negb]; cbv beta.
  destruct (path_exists E (joinpath t "api") (world s)) eqn:H2;
    destruct (path_exists E (joinpath t "web") (world s)) eqn:H3;
    try (simpl; repeat split; reflexivity).
  destruct H as [H|[H|H]]; discriminate.
Qed.

(** X10: with a valid target, when [git --version] cannot be started
    because git is not found, or exits with a non-zero status, [main]
    returns 1 after that single process: no backup is made and no patch is
    probed. *)
Theorem main_stops_without_git args (s : state E) r w' :
  let t := resolve E (target args) (world s) in
  path_exists E t (world s) = true ->
  path_exists E (joinpath t "api") (world s) = true ->
  path_exists E (joinpath t "web") (world s) = true ->
  spawn E version_argv None (world s) = (r, w') ->
  match r with
  | Exited cp => returncode cp <> 0%Z
  | NotFound _ => True
  | Broken _ => False
  end ->
  fst (main args s) = Return 1%Z
  /\ calls (snd (main args s)) = (calls s ++ [(version_argv, None)])%list
  /\ world (snd (main args s)) = w'.
Proof.
  intros t0 H1 H2 H3 Hs Hr; subst t0; unfold main, bind, ask.
  set (t := resolve E (target args) (world s)) in *.
  rewrite H1; cbn [negb]; rewrite H2, H3; cbn [negb orb].
  unfold check_git_available, try_except, bind, subprocess_run.
  rewrite Hs; destruct r as [cp|m|m]; [| |contradiction].
  - apply Z.eqb_neq in Hr; simpl; rewrite Hr; simpl.
    repeat split; reflexivity.
  - simpl; repeat split; reflexivity.
Qed.

Lemma exits_bind {A} (m : M (state E) A) (k : A -> M (state E) Z) :
  (forall a, exits_0_or_1 (k a)) -> exits_0_or_1 (bind m k).
Proof.
  intros Hk s; unfold bind.
  destruct (m s) as [[a|e] s1]; [apply Hk|right; reflexivity].
Qed.

Lemma exits_if (b : bool) (m1 m2 : M (state E) Z) :
  exits_0_or_1 m1 -> exits_0_or_1 m2 -> exits_0_or_1 (if b then m1 else m2).
Proof. destruct b; auto. Qed.

Lemma exits_ret_0 : exits_0_or_1 (E := E) (ret 0%Z).
Proof. intros s; left; reflexivity. Qed.

Lemma exits_ret_1 : exits_0_or_1 (E := E) (ret 1%Z).
Proof. intros s; right; reflexivity. Qed.

(** X11: whatever the arguments and whatever the world does, the exit
    status of the process is 0 or 1, an exception that leaves [main]
    included. *)
Theorem main_exit_status_0_or_1 args (s : state E) :
  exit_status (fst (main args s)) = 0%Z
  \/ exit_status (fst (main args s)) = 1%Z.
Proof.
  revert s; change (exits_0_or_1 (main (E := E) args)).
  unfold main, run_and_report.
  repeat first [ apply exits_ret_0 | apply exits_ret_1 | apply exits_if
               | apply exits_bind; intros ? ].
Qed.

Lemma adds_calls_print (P : call -> Prop) (s : state E) line :
  adds_calls P s (printed s line).
Proof. exists []; split; [simpl; rewrite app_nil_r; reflexivity|constructor]. Qed.

(** X12: every process [main] spawns is one of the six the script knows:
    [git --version], the reverse and the forward [git apply ... --check],
    [git apply], [git status --porcelain] and the [git stash push] of the
    backup.  In particular no patch is ever reverse-applied for real and no
    stash is ever popped or dropped. *)
Theorem main_spawns_known_calls_only args (s : state E) :
  adds_calls known_call s (snd (main args s)).
Proof.
  apply (keeps_main (adds_calls known_call) known_call (dry_run args)
                    (adds_calls_refl _)
                    (adds_calls_trans _)
                    (adds_calls_print _)
                    (fun s argv cwd H => adds_calls_spawn _ s _ argv cwd H));
    try reflexivity;
    intros; unfold known_call; simpl; auto.
Qed.

Section NoBackup.

Variable R : state E -> state E -> Prop.
Variable ok : call -> Prop.

Hypothesis R_refl : forall s, R s s.
Hypothesis R_trans : forall a b c, R a b -> R b c -> R a c.
Hypothesis R_print : forall s line, R s (printed s line).
Hypothesis R_spawn :
  forall s argv cwd,
    ok (argv, cwd) ->
    R s (spawned_state s (snd (spawn E argv cwd (world s))) argv cwd).

Hypothesis ok_version : ok (version_argv, None).
Hypothesis ok_reverse : forall t p, ok (reverse_check_argv p, Some t).
Hypothesis ok_forward : forall t p, ok (forward_check_argv p, Some t).
Hypothesis ok_apply : forall t p, ok (apply_argv p, Some t).

Lemma keeps_main_no_backup args :
  no_backup args = true -> keeps R (main args).
Proof.
  intros Hn; unfold main.
  do 3 (apply (keeps_bind R R_trans); [apply (keeps_ask R R_refl)|intros ?]).
  assert (Hmsg : forall m c, keeps R (print_colored m c))
    by (intros; apply (keeps_print_colored R R_print)).
  assert (Hret : forall c : Z, keeps R (ret c))
    by (intros; apply (keeps_ret R R_refl)).
  apply keeps_if; [apply (keeps_bind R R_trans); [apply Hmsg|intros _; apply Hret]|].
  do 2 (apply (keeps_bind R R_trans); [apply (keeps_ask R R_refl)|intros ?]).
  apply keeps_if.
  { apply (keeps_bind R R_trans); [apply Hmsg|intros _].
    apply (keeps_bind R R_trans); [apply Hmsg|intros _; apply Hret]. }
  apply (keeps_bind R R_trans);
    [apply (keeps_check_git_available R ok R_refl R_trans R_spawn ok_version)
    |intros ?].
  apply keeps_if; [apply (keeps_bind R R_trans); [apply Hmsg|intros _; apply Hret]|].
  apply (keeps_bind R R_trans).
  { unfold backup_step; rewrite Hn; simpl; apply (keeps_ret R R_refl). }
  intros _.
  apply (keeps_bind R R_trans); [apply Hmsg|intros _].
  apply (keeps_bind R R_trans); [apply (keeps_print R R_print)|intros _].
  apply (keeps_run_and_report R ok (dry_run args) R_refl R_trans R_print
                              R_spawn ok_reverse ok_forward
                              (fun _ => ok_apply)).
Qed.

End NoBackup.

(** X13: with [--no-backup], every process [main] spawns is
    [git --version], a [git apply ... --check] or a [git apply]: neither
    [git status] nor [git stash] is run. *)
Theorem no_backup_spawns_no_stash args (s : state E) :
  no_backup args = true ->
  adds_calls patch_call s (snd (main args s)).
Proof.
  intros Hn.
  apply (keeps_main_no_backup (adds_calls patch_call) patch_call
                              (adds_calls_refl _)
                              (adds_calls_trans _)
                              (adds_calls_print _)
                              (fun s argv cwd H =>
                                 adds_calls_spawn _ s _ argv cwd H));
    try exact Hn;
    intros; unfold patch_call; simpl; auto.
Qed.

End Properties.

(** ** The properties at work on the concrete worlds *)

Import Scripted.

Ltac run := vm_compute; reflexivity.

(** C1 on three patches of which the second conflicts: the third is never
    probed. *)
Lemma C1_halt_on_failure_witness :
  fst (run_and_report "/dify" "/p" false false second_conflicts) = Return 1%Z
  /\ calls (snd (run_and_report "/dify" "/p" false false second_conflicts)) =
     [(reverse_check_argv patch_a, Some "/dify");
      (forward_check_argv patch_a, Some "/dify");
      (apply_argv patch_a, Some "/dify");
      (reverse_check_argv patch_b, Some "/dify");
      (forward_check_argv patch_b, Some "/dify")].
Proof.
  assert (H1 : path_exists env "/p" (world second_conflicts) = true) by run.
  assert (H2 : glob_patch (E := env) "/p" (world second_conflicts)
               = ([patch_a] ++ patch_b :: [patch_c])%list) by run.
  assert (H3 : for_patches "/dify" false false [patch_a] (mkCounts 0 0 0)
                 (snd (found_banner
                         (List.length ([patch_a] ++ patch_b :: [patch_c]))
                         second_conflicts))
               = (Return (inl (mkCounts 1 0 0)), after_first)) by run.
  assert (H4 : apply_patch "/dify" patch_b false after_first
               = (Return (false,
                          "b.patch: Conflicts detected: error: patch failed: api/app.py:10"),
                  after_second)) by run.
  destruct (C1_halt_on_failure env "/dify" "/p" false [patch_a] patch_b
              [patch_c] second_conflicts after_first after_second
              (mkCounts 1 0 0) _ H1 H2 H3 H4)
    as (_ & _ & _ & s3 & H & Hc & _ & _).
  rewrite H; split; [reflexivity|].
  etransitivity; [exact Hc|run].
Defined.

(** A run with [force] in which the spawn of [git apply] raises for the first
    of two patches: the exception leaves the batch, and the second patch is
    never probed. *)
Lemma C2_counterexample :
  glob_patch (E := env) "/p" (world apply_raises) = [patch_a; patch_b]
  /\ fst (run_and_report "/dify" "/p" false true apply_raises) =
     Raise (OtherException "[Errno 12] Cannot allocate memory")
  /\ calls (snd (run_and_report "/dify" "/p" false true apply_raises)) =
     [(reverse_check_argv patch_a, Some "/dify");
      (forward_check_argv patch_a, Some "/dify");
      (apply_argv patch_a, Some "/dify")].
Proof. split; [run|split; run]. Qed.

(** C2 on three patches of which the second conflicts, with [force]: the
    third is applied all the same, and the exit code is 1. *)
Lemma C2_force_processes_every_patch_witness :
  outcomes "/dify" false [patch_a; patch_b; patch_c]
           (snd (found_banner 3 forced_through))
  = [(true, "a.patch: Applied successfully");
     (false,
      "b.patch: Conflicts detected: error: patch failed: api/app.py:10");
     (true, "c.patch: Applied successfully")]
  /\ fst (run_and_report "/dify" "/p" false true forced_through)
     = Return 1%Z.
Proof.
  assert (H1 : path_exists env "/p" (world forced_through) = true) by run.
  assert (H2 : applications_start
                 "/dify" false
                 (glob_patch "/p" (world forced_through))
                 (snd (found_banner
                         (List.length (glob_patch (E := env) "/p"
                                         (world forced_through)))
                         forced_through))
               = true) by run.
  destruct (C2_force_processes_every_patch env "/dify" "/p" false
              forced_through H1 (fun _ => H2))
    as (c & s1 & new & s2 & _ & _ & _ & _ & _ & _ & _ & _ & _ & Hr).
  split; [run|].
  etransitivity; [exact Hr|run].
Defined.

(** C3 on a patch whose reverse dry-run exits with status 0. *)
Lemma C3_applied_check_first_witness :
  is_patch_applied "/dify" patch_a (start [passing] everything [])
  = (Return (true, "Already applied"),
     spawned_state (start [passing] everything [])
                   (mkSim [] [] everything [])
                   (reverse_check_argv patch_a) (Some "/dify")).
Proof.
  assert (H1 : spawn env (reverse_check_argv patch_a) (Some "/dify")
                     (world (start [passing] everything []))
               = (Exited quiet, mkSim [] [] everything [])) by run.
  assert (H2 : returncode quiet = 0%Z) by reflexivity.
  exact (proj1 (C3_applied_check_first env "/dify" patch_a
                  (start [passing] everything []) quiet
                  (mkSim [] [] everything []) H1 H2)).
Defined.

(** C4 on a patch for which both dry-runs fail, each with its own text. *)
Lemma C4_conflict_reason_from_forward_witness :
  fst (is_patch_applied "/dify" patch_a
         (start [failing "reverse text"; failing ("forward text" ++ nl)]
                everything []))
  = Return (false, "Conflicts detected: forward text").
Proof.
  pose (s := start [failing "reverse text"; failing ("forward text" ++ nl)]
                   everything []).
  pose (w1 := mkSim [failing ("forward text" ++ nl)] [] everything []).
  pose (w2 := mkSim [] [] everything []).
  assert (H1 : spawn env (reverse_check_argv patch_a) (Some "/dify") (world s)
               = (Exited (mkCompleted 1 "" "reverse text"), w1)) by run.
  assert (N1 : returncode (mkCompleted 1 "" "reverse text") <> 0%Z)
    by discriminate.
  assert (H2 : spawn env (forward_check_argv patch_a) (Some "/dify") w1
               = (Exited (mkCompleted 1 "" ("forward text" ++ nl)), w2))
    by run.
  assert (N2 : returncode (mkCompleted 1 "" ("forward text" ++ nl)) <> 0%Z)
    by discriminate.
  etransitivity;
    [exact (proj1 (C4_conflict_reason_from_forward env "/dify" patch_a s
                     _ w1 _ w2 H1 N1 H2 N2))|run].
Defined.

Lemma scripted_checks_write_nothing (argv : list string) :
  is_check_call argv = true -> writes argv = None.
Proof.
  destruct argv as [|g [|v [|c [|d [|e [|f r]]]]]]; simpl; try discriminate;
    intros H;
    repeat match goal with
           | H : _ && _ = true |- _ => apply andb_true_iff in H as [? ?]
           | H : (_ =? _) = true |- _ => apply String.eqb_eq in H; subst
           end;
    reflexivity.
Qed.

Lemma scripted_checks_keep_tree argv cwd (w : World env) :
  is_check_call argv = true -> tree (snd (spawn env argv cwd w)) = tree w.
Proof.
  intros H; simpl; unfold run; simpl.
  rewrite (scripted_checks_write_nothing argv H); reflexivity.
Qed.

(** C5 on a dry run of [main] over three patches: the tree is as before. *)
Lemma C5_dry_run_purity_witness :
  tree (world (snd (main (mkArgs "/dify" "/p" true false false)
                         (start [passing; failing "x"; passing;
                                 failing "y"; failing "z"]
                                everything three_patches))))
  = [].
Proof.
  exact (proj1 (proj1 (proj2 (C5_dry_run_purity env (list string) tree
                                scripted_checks_keep_tree))
                      (mkArgs "/dify" "/p" true false false)
                      (start [passing; failing "x"; passing;
                              failing "y"; failing "z"]
                             everything three_patches)
                      eq_refl)).
Defined.

(** C6 on a directory without patches and on a missing directory. *)
Lemma C6_empty_and_missing_directory_witness :
  fst (run_and_report "/dify" "/p" false false
                      (start [] everything ["README.md"])) = Return 0%Z
  /\ fst (run_and_report "/dify" "/p" false false
                         (start [] nothing ["a.patch"])) = Return 1%Z.
Proof.
  split.
  - assert (H1 : path_exists env "/p"
                   (world (start [] everything ["README.md"])) = true) by run.
    assert (H2 : Forall (fun n => endswith ".patch" n = false)
                        (listdir env "/p"
                           (world (start [] everything ["README.md"]))))
      by (repeat constructor).
    destruct (proj1 (C6_empty_and_missing_directory env "/dify" "/p" false
                       false (start [] everything ["README.md"])) H1 H2)
      as (_ & s' & H & _).
    rewrite H; reflexivity.
  - assert (H1 : path_exists env "/p"
                   (world (start [] nothing ["a.patch"])) = false) by run.
    destruct (proj2 (C6_empty_and_missing_directory env "/dify" "/p" false
                       false (start [] nothing ["a.patch"])) H1)
      as (_ & s' & H & _).
    rewrite H; reflexivity.
Defined.

(** On a clean tree and on a dirty one the snapshot guard gives the same
    answer, [True], although a snapshot is taken on the dirty one only. *)
Lemma C7_counterexample :
  fst (create_backup "/dify" clean_tree) = Return true
  /\ tree (world (snd (create_backup "/dify" clean_tree))) = []
  /\ calls (snd (create_backup "/dify" clean_tree))
     = [(status_argv, Some "/dify")]
  /\ fst (create_backup "/dify" dirty_tree) = Return true
  /\ tree (world (snd (create_backup "/dify" dirty_tree))) = ["stash"].
Proof. repeat (split; [run|]); run. Qed.

(** C8 on a patch that passes the probe and fails in the application. *)
Lemma C8_failed_apply_is_data_witness :
  fst (apply_patch "/dify" patch_a false fails_late)
  = Return (false,
            "a.patch: Failed to apply" ++ nl
            ++ "error: patch failed: api/app.py:10").
Proof.
  pose (s1 := snd (is_patch_applied "/dify" patch_a fails_late)).
  pose (cp := mkCompleted 1 "" ("error: patch failed: api/app.py:10" ++ nl)).
  assert (Hp : is_patch_applied "/dify" patch_a fails_late
               = (Return (false, "Ready to apply"), s1)) by run.
  assert (Hc : contains "Conflicts" "Ready to apply" = false) by run.
  assert (Hs : spawn env (apply_argv patch_a) (Some "/dify") (world s1)
               = (Exited cp, mkSim [] [] everything ["a.patch"])) by run.
  assert (Hn : returncode cp <> 0%Z) by discriminate.
  etransitivity;
    [exact (f_equal fst
              (proj1 (C8_failed_apply_is_data env "/dify" patch_a fails_late
                        s1 "Ready to apply" cp _ Hp Hc Hs Hn)))|run].
Defined.

(** The standard error of git ends with a line feed, which the message of
    the failed outcome does not keep: the text is not in it verbatim. *)
Lemma C8_counterexample :
  fst (apply_patch "/dify" patch_a false fails_late)
  = Return (false,
            "a.patch: Failed to apply" ++ nl
            ++ "error: patch failed: api/app.py:10")
  /\ contains ("error: patch failed: api/app.py:10" ++ nl)
              ("a.patch: Failed to apply" ++ nl
               ++ "error: patch failed: api/app.py:10") = false.
Proof. split; run. Qed.

(** C9 on a probe whose spawn raises [FileNotFoundError]. *)
Lemma C9_probe_error_goes_on_witness :
  fst (apply_patch "/dify" patch_a true
         (probe_raises "[Errno 2] No such file or directory: 'git'"))
  = Return (true, "a.patch: Would be applied (dry-run)")
  /\ calls (snd (apply_patch "/dify" patch_a false
                   (probe_raises "[Errno 2] No such file or directory: 'git'")))
     = [(reverse_check_argv patch_a, Some "/dify");
        (apply_argv patch_a, Some "/dify")].
Proof.
  set (text := "[Errno 2] No such file or directory: 'git'").
  pose (s1 := snd (is_patch_applied "/dify" patch_a (probe_raises text))).
  assert (Hp : is_patch_applied "/dify" patch_a (probe_raises text)
               = (Return (false, "Error checking patch: " ++ text), s1))
    by run.
  assert (Hc : contains "Conflicts" text = false) by run.
  destruct (C9_probe_error_goes_on env "/dify" patch_a (probe_raises text)
              s1 text Hp Hc) as (Hd & _ & Hl).
  split; [rewrite Hd; reflexivity|].
  etransitivity; [exact Hl|run].
Defined.

(** A probe whose spawn raises with a path that has [Conflicts] in it:
    the applicator reports a failure, in a dry run too, and does not attempt
    the application. *)
Lemma C9_counterexample :
  let text := "[Errno 2] No such file or directory: '/srv/Conflicts/dify'" in
  fst (is_patch_applied "/srv/Conflicts/dify" patch_a (probe_raises text))
  = Return (false, "Error checking patch: " ++ text)
  /\ fst (apply_patch "/srv/Conflicts/dify" patch_a false (probe_raises text))
     = Return (false, "a.patch: Error checking patch: " ++ text)
  /\ calls (snd (apply_patch "/srv/Conflicts/dify" patch_a false
                             (probe_raises text)))
     = [(reverse_check_argv patch_a, Some "/srv/Conflicts/dify")]
  /\ fst (apply_patch "/srv/Conflicts/dify" patch_a true (probe_raises text))
     = Return (false, "a.patch: Error checking patch: " ++ text).
Proof. repeat (split; [run|]); run. Qed.

(** C10 on a patch named [Already applied.patch] that was not applied
    before and is applied by this run. *)
Lemma C10_applied_patch_counted_as_skipped_witness :
  fst (loop_body "/dify" false false (mkCounts 0 0 0)
                 (mkPath "/p" "Already applied.patch")
                 (applies_cleanly ["Already applied.patch"]))
  = Return (inl (mkCounts 0 1 0))
  /\ tree (world (snd (loop_body "/dify" false false (mkCounts 0 0 0)
                         (mkPath "/p" "Already applied.patch")
                         (applies_cleanly ["Already applied.patch"]))))
     = ["/p/Already applied.patch"].
Proof.
  pose (p := mkPath "/p" "Already applied.patch").
  pose (s := applies_cleanly ["Already applied.patch"]).
  pose (w1 := mkSim [passing; passing] [] everything
                    ["Already applied.patch"]).
  pose (w2 := mkSim [passing] [] everything ["Already applied.patch"]).
  pose (w3 := mkSim [] ["/p/Already applied.patch"] everything
                    ["Already applied.patch"]).
  assert (Hn : contains "Already applied" (name p) = true) by run.
  assert (H1 : spawn env (reverse_check_argv p) (Some "/dify") (world s)
               = (Exited (mkCompleted 1 "" "error: not applied"), w1)) by run.
  assert (N1 : returncode (mkCompleted 1 "" "error: not applied") <> 0%Z)
    by discriminate.
  assert (H2 : spawn env (forward_check_argv p) (Some "/dify") w1
               = (Exited quiet, w2)) by run.
  assert (H3 : spawn env (apply_argv p) (Some "/dify") w2
               = (Exited quiet, w3)) by run.
  destruct (C10_applied_patch_counted_as_skipped env "/dify" p false
              (mkCounts 0 0 0) s _ w1 _ w2 _ w3 Hn H1 N1 H2 eq_refl H3 eq_refl)
    as (s1 & _ & Hw & _ & Hl).
  fold p; fold s; rewrite Hl; split; [reflexivity|].
  simpl; rewrite Hw; reflexivity.
Defined.

(** ** The further properties at work *)

(** X2 on a real run of a patch that passes the probe. *)
Lemma apply_spawned_exactly_when_witness :
  calls (snd (apply_patch "/dify" patch_a false fails_late))
  = [(reverse_check_argv patch_a, Some "/dify");
     (forward_check_argv patch_a, Some "/dify");
     (apply_argv patch_a, Some "/dify")].
Proof.
  pose (s1 := snd (is_patch_applied "/dify" patch_a fails_late)).
  assert (Hp : is_patch_applied "/dify" patch_a fails_late
               = (Return (false, "Ready to apply"), s1)) by run.
  etransitivity;
    [exact (apply_spawned_exactly_when env "/dify" patch_a false fails_late
              s1 false "Ready to apply" Hp)|run].
Defined.

(** X3 on a run in which the spawn of [git apply] raises. *)
Lemma apply_patch_raises_only_from_spawn_witness :
  exists s1 w' msg,
    snd (apply_patch "/dify" patch_a false apply_raises)
    = spawned_state s1 w' (apply_argv patch_a) (Some "/dify")
    /\ ((OtherException "[Errno 12] Cannot allocate memory"
         = FileNotFoundError msg
         /\ spawn env (apply_argv patch_a) (Some "/dify") (world s1)
            = (NotFound msg, w'))
        \/ (OtherException "[Errno 12] Cannot allocate memory"
            = OtherException msg
            /\ spawn env (apply_argv patch_a) (Some "/dify") (world s1)
               = (Broken msg, w'))).
Proof.
  pose (s' := snd (apply_patch "/dify" patch_a false apply_raises)).
  assert (Ha : apply_patch "/dify" patch_a false apply_raises
               = (Raise (OtherException "[Errno 12] Cannot allocate memory"),
                  s')) by run.
  exact (proj2 (apply_patch_raises_only_from_spawn env "/dify" patch_a false
                  apply_raises s' _ Ha)).
Defined.

(** X5 on a forced loop over three patches of which two fail. *)
Lemma for_patches_counters_witness :
  let l := map (mkPath "/p") ["1-ok.patch"; "2-conflict.patch"; "3-bad.patch"] in
  exists c',
    fst (for_patches "/dify" false true l (mkCounts 0 0 0)
                     (Steady.start Steady.mixed))
    = Return (inl c')
    /\ total c' = 3
    /\ fail_count c' = 2.
Proof.
  intros l.
  pose (s' := snd (for_patches "/dify" false true l (mkCounts 0 0 0)
                               (Steady.start Steady.mixed))).
  assert (Hf : for_patches "/dify" false true l (mkCounts 0 0 0)
                           (Steady.start Steady.mixed)
               = (Return (inl (mkCounts 1 0 2)), s')) by run.
  destruct (for_patches_counters (Steady.env Steady.mixed) "/dify" false true
              l (mkCounts 0 0 0) (Steady.start Steady.mixed) s'
              (inl (mkCounts 1 0 2)) Hf) as [Ht _].
  exists (mkCounts 1 0 2); split; [rewrite Hf; reflexivity|].
  split; [exact Ht|reflexivity].
Defined.

(** X6 on a batch of two patches, one applied and one already there. *)
Lemma unforced_batch_that_completes_witness :
  let s := start [failing "error: a"; passing; passing; passing]
                 everything ["b.patch"; "a.patch"] in
  fst (apply_patches "/dify" "/p" false false s) = Return true.
Proof.
  intros s.
  pose (l := [patch_a; patch_b]).
  pose (s1 := snd (for_patches "/dify" false false l (mkCounts 0 0 0)
                               (snd (found_banner (List.length l) s)))).
  assert (H1 : path_exists env "/p" (world s) = true) by run.
  assert (H2 : glob_patch (E := env) "/p" (world s) = l) by run.
  assert (H3 : l <> []) by discriminate.
  assert (H4 : for_patches "/dify" false false l (mkCounts 0 0 0)
                           (snd (found_banner (List.length l) s))
               = (Return (inl (mkCounts 1 1 0)), s1)) by run.
  rewrite (proj1 (unforced_batch_that_completes env "/dify" "/p" false l s s1
                    (mkCounts 1 1 0) H1 H2 H3 H4)).
  reflexivity.
Defined.

(** X7 on a patch with an ordinary name that this run applies. *)
Lemma skipped_exactly_when_witness :
  fst (loop_body "/dify" false false (mkCounts 0 0 0) patch_a
                 (applies_cleanly ["a.patch"]))
  = Return (inl (mkCounts 1 0 0)).
Proof.
  pose (s := applies_cleanly ["a.patch"]).
  pose (s0 := snd (is_patch_applied "/dify" patch_a s)).
  pose (s1 := snd (apply_patch "/dify" patch_a false s)).
  assert (Hp : is_patch_applied "/dify" patch_a s
               = (Return (false, "Ready to apply"), s0)) by run.
  assert (Ha : apply_patch "/dify" patch_a false s
               = (Return (true, "a.patch: Applied successfully"), s1)) by run.
  etransitivity;
    [exact (skipped_exactly_when env "/dify" false false (mkCounts 0 0 0)
              patch_a s s0 s1 false "Ready to apply"
              "a.patch: Applied successfully" Hp Ha)|run].
Defined.

(** X9 on a target directory that does not exist. *)
Lemma main_rejects_invalid_target_witness :
  fst (main (mkArgs "/dify" "/p" false false false)
            (start [] nothing ["a.patch"])) = Return 1%Z
  /\ calls (snd (main (mkArgs "/dify" "/p" false false false)
                      (start [] nothing ["a.patch"]))) = [].
Proof.
  assert (H : path_exists env "/dify" (world (start [] nothing ["a.patch"]))
              = false) by run.
  destruct (main_rejects_invalid_target env
              (mkArgs "/dify" "/p" false false false)
              (start [] nothing ["a.patch"]) (or_introl H)) as (H1 & H2 & _).
  split; [exact H1|exact H2].
Defined.

(** X10 on a machine without git. *)
Lemma main_stops_without_git_witness :
  let s := start [NotFound "[Errno 2] No such file or directory: 'git'"]
                 everything ["a.patch"] in
  fst (main (mkArgs "/dify" "/p" false false false) s) = Return 1%Z
  /\ calls (snd (main (mkArgs "/dify" "/p" false false false) s))
     = [(version_argv, None)].
Proof.
  intros s.
  assert (H1 : path_exists env "/dify" (world s) = true) by run.
  assert (H2 : path_exists env (joinpath "/dify" "api") (world s) = true)
    by run.
  assert (H3 : path_exists env (joinpath "/dify" "web") (world s) = true)
    by run.
  assert (Hs : spawn env version_argv None (world s)
               = (NotFound "[Errno 2] No such file or directory: 'git'",
                  mkSim [] [] everything ["a.patch"])) by run.
  destruct (main_stops_without_git env
              (mkArgs "/dify" "/p" false false false) s _ _ H1 H2 H3 Hs I)
    as (Hr & Hc & _).
  split; [exact Hr|exact Hc].
Defined.

(** X13 on a real run with [--no-backup] that passes the git check and
    applies a patch: the backup step is reached and spawns nothing, where
    the same run without the flag spawns [git status] second. *)
Lemma no_backup_spawns_no_stash_witness :
  adds_calls patch_call git_then_applies
             (snd (main (mkArgs "/dify" "/p" false false true)
                        git_then_applies))
  /\ calls (snd (main (mkArgs "/dify" "/p" false false true)
                      git_then_applies))
     = [(version_argv, None);
        (reverse_check_argv patch_a, Some "/dify");
        (forward_check_argv patch_a, Some "/dify");
        (apply_argv patch_a, Some "/dify")]
  /\ fst (main (mkArgs "/dify" "/p" false false true) git_then_applies)
     = Return 0%Z
  /\ hd_error (tl (calls (snd (main (mkArgs "/dify" "/p" false false false)
                                    git_then_applies))))
     = Some (status_argv, Some "/dify").
Proof.
  split;
    [exact (no_backup_spawns_no_stash env
              (mkArgs "/dify" "/p" false false true)
              git_then_applies eq_refl)|].
  split; [run|split; run].
Defined.

(** [main] past its validations, on a dry run over three patches. *)
Lemma main_runs_batch_witness :
  let s := start [passing; failing "x"; passing; failing "y"; failing "z"]
                 everything three_patches in
  exists s2,
    main (mkArgs "/dify" "/p" true false false) s
    = run_and_report "/dify" "/p" true false s2.
Proof.
  intros s.
  pose (s1 := snd (check_git_available s)).
  assert (H1 : path_exists env "/dify" (world s) = true) by run.
  assert (H2 : path_exists env (joinpath "/dify" "api") (world s) = true)
    by run.
  assert (H3 : path_exists env (joinpath "/dify" "web") (world s) = true)
    by run.
  assert (Hg : check_git_available s = (Return true, s1)) by run.
  destruct (main_runs_batch env (mkArgs "/dify" "/p" true false false) s s1
              H1 H2 H3 Hg) as (s2 & _ & _ & H).
  exists s2; exact H.
Defined.
